(** * kmsctl: alias resolution, bucket traversal and transfer orchestration

    A shallow embedding of the command bodies of kmsctl (kms.go, buckets.go,
    files.go / get.go) together with the properties of their specification.

    Go strings are byte strings and are modelled by [string]; a Go
    [(T, error)] pair is a [result T]; a Go [error] return is an
    [option error] ([None] is [nil]).  Every call that leaves the process
    (S3, KMS, the file system, the editor, the regexp compiler, the output
    formatter) is a node of a program tree, answered by a handler; a run
    yields the returned value, the final state of the environment and the
    sequence of calls that were made. *)

From Stdlib Require Import String Ascii List Bool Arith NArith Lia.
Import ListNotations.
Open Scope list_scope.
Open Scope string_scope.

(** ** The Go [strings] package, on byte strings *)

Module strings.

(** [strings.HasPrefix(s, prefix)] *)
Fixpoint HasPrefix (s prefix : string) {struct prefix} : bool :=
  match prefix, s with
  | EmptyString, _ => true
  | String _ _, EmptyString => false
  | String a prefix', String b s' => Ascii.eqb a b && HasPrefix s' prefix'
  end.

(** [s[n:]] *)
Fixpoint drop (n : nat) (s : string) : string :=
  match n, s with
  | O, _ => s
  | S _, EmptyString => EmptyString
  | S n', String _ s' => drop n' s'
  end.

(** [strings.TrimPrefix(s, prefix)]: [s] without the leading [prefix],
    [s] itself when it does not start with [prefix]. *)
Definition TrimPrefix (s prefix : string) : string :=
  if HasPrefix s prefix then drop (String.length prefix) s else s.

(** [strings.Contains(s, substr)] *)
Fixpoint Contains (s substr : string) : bool :=
  HasPrefix s substr ||
  match s with
  | EmptyString => false
  | String _ s' => Contains s' substr
  end.

(** [strings.HasSuffix(s, suffix)] *)
Fixpoint HasSuffix (s suffix : string) : bool :=
  String.eqb s suffix ||
  match s with
  | EmptyString => false
  | String _ s' => HasSuffix s' suffix
  end.

(** membership of a byte in a cutset *)
Fixpoint inCutset (c : ascii) (cutset : string) : bool :=
  match cutset with
  | EmptyString => false
  | String d cutset' => Ascii.eqb c d || inCutset c cutset'
  end.

(** [strings.TrimLeft(s, cutset)]: [s] with all leading bytes contained in
    [cutset] removed.  (Go works on code points; for an ASCII cutset this
    is the same as working on bytes.) *)
Fixpoint TrimLeft (s cutset : string) : string :=
  match s with
  | EmptyString => EmptyString
  | String c s' => if inCutset c cutset then TrimLeft s' cutset else s
  end.

(** [strings.Split(s, sep)] for a separator that is not empty: [skip]
    counts the bytes of a separator still to pass over *)
Fixpoint splitFrom (sep : string) (skip : nat) (s : string) : list string :=
  match skip, s with
  | S skip', String _ s' => splitFrom sep skip' s'
  | S _, EmptyString => [EmptyString]
  | O, EmptyString => [EmptyString]
  | O, String c s' =>
      if HasPrefix s sep then
        EmptyString :: splitFrom sep (String.length sep - 1) s'
      else
        match splitFrom sep 0 s' with
        | h :: t => String c h :: t
        | [] => [String c EmptyString]
        end
  end.

Definition Split (s sep : string) : list string := splitFrom sep 0 s.

End strings.

(** ** The Go [path] / [path/filepath] packages (Unix separators) *)

Module filepath.

Definition isSlash (c : ascii) : bool := Ascii.eqb c "/"%char.

(** the elements of a path between its slashes *)
Fixpoint elements (s : string) : list string :=
  match s with
  | EmptyString => [EmptyString]
  | String c s' =>
      if isSlash c then EmptyString :: elements s'
      else match elements s' with
           | h :: t => String c h :: t
           | [] => [String c EmptyString]
           end
  end.

Fixpoint join (l : list string) : string :=
  match l with
  | [] => EmptyString
  | [x] => x
  | x :: l' => x ++ "/" ++ join l'
  end.

(** one element of [Clean]'s scan; [stack] is the output so far, last
    element first *)
Definition cleanStep (rooted : bool) (stack : list string) (elem : string)
  : list string :=
  if String.eqb elem "" then stack
  else if String.eqb elem "." then stack
  else if String.eqb elem ".." then
    match stack with
    | top :: rest => if String.eqb top ".." then elem :: stack else rest
    | [] => if rooted then [] else [elem]
    end
  else elem :: stack.

(** [Clean(path)]: the shortest equivalent path name *)
Definition Clean (path : string) : string :=
  let rooted := strings.HasPrefix path "/" in
  let out := join (rev (fold_left (cleanStep rooted) (elements path) [])) in
  let out := if rooted then "/" ++ out else out in
  if String.eqb out "" then "." else out.

(** the part of a path up to and including its last slash *)
Fixpoint dirPart (s : string) : string :=
  match s with
  | EmptyString => EmptyString
  | String c s' =>
      if isSlash c || strings.Contains s' "/" then String c (dirPart s')
      else EmptyString
  end.

(** [Dir(path)]: all but the last element of the path, cleaned *)
Definition Dir (path : string) : string := Clean (dirPart path).

Fixpoint trimTrailingSlashes (s : string) : string :=
  match s with
  | EmptyString => EmptyString
  | String c s' =>
      let r := trimTrailingSlashes s' in
      if String.eqb r "" && isSlash c then EmptyString else String c r
  end.

(** [Base(path)]: the last element of the path *)
Definition Base (path : string) : string :=
  if String.eqb path "" then "."
  else
    let p := trimTrailingSlashes path in
    let e := last (elements p) EmptyString in
    if String.eqb e "" then "/" else e.

End filepath.

(** ** Data model *)

(** A Go [error].  [errKmsNotFound] is the package-level sentinel of kms.go,
    compared by identity; [Errorf] is a value built by [fmt.Errorf];
    [External] is an error handed back by the SDK, the operating system or
    the regexp compiler. *)
Inductive error : Type :=
| errKmsNotFound
| Errorf (msg : string)
| External (msg : string).

(** [err.Error()] *)
Definition Error (e : error) : string :=
  match e with
  | errKmsNotFound => "kms alias does not exist"
  | Errorf msg => msg
  | External msg => msg
  end.

(** A Go [(T, error)] return. *)
Inductive result (A : Type) : Type :=
| Ok (a : A)
| Err (e : error).
Arguments Ok {A} a.
Arguments Err {A} e.

(** [kms.AliasListEntry].  [TargetKeyId] is the one pointer field the code
    itself tests against [nil] (in [listKeys]), so it is optional here;
    [AliasName], like [s3.Object.Key] and [s3.Bucket.Name] below, is
    dereferenced unconditionally wherever it is used and is taken as always
    present. *)
Record AliasListEntry : Type := {
  AliasName : string;
  TargetKeyId : option string
}.

(** [kms.KeyMetadata] *)
Record KeyMetadata : Type := {
  Arn : string;
  AWSAccountId : string
}.

(** [s3.Bucket] *)
Record Bucket : Type := { Name : string }.

(** [s3.Owner] *)
Record s3Owner : Type := {
  DisplayName : option string;
  ID : option string
}.

(** [s3.Object].  [Key] is dereferenced by every command that lists a
    bucket and is taken as always present; the other pointer fields are
    read by the long listing of [listFiles] only, unchecked, and are
    optional here.  [LastModified] is the time as [Format(time.RFC822)]
    prints it. *)
Record Object : Type := {
  Key : string;
  Size : option N;
  StorageClass : option string;
  ETag : option string;
  Owner : option s3Owner;
  LastModified : option string
}.

(** [os.File] *)
Record File : Type := { FileName : string }.

(** A compiled [regexp.Regexp], known by its [MatchString] method. *)
Record Regexp : Type := { MatchString : string -> bool }.

(** One record handed to the output formatter
    ([o.fields(...).log(...)]), by call site.  In the long listing of
    [listFiles] the arguments of [log] are evaluated after [fields] has
    been called, so the two halves are two records there: [LogFileFields]
    for the call of [fields] and [LogFile true] for the call of [log];
    [LogFile false] is the whole report of the short listing. *)
Inductive LogRecord : Type :=
| LogKey (id alias : string)
| LogKeyExists (alias : string)
| LogKeyCreated (alias arn account : string)
| LogKeyDeleted (alias keyId : string) (deletion : bool)
| LogBucketCreated (bucket : string)
| LogBucketDeleted (bucket : string)
| LogFile (detailed : bool) (k : Object)
| LogFileFields (k : Object)
| LogGet (source destination content : string)
| LogPut (path bucket key : string).

(** ** Calls to the outside and programs over them *)

Inductive Call : Type :=
| KmsListAliases
| KmsCreateKey (description origin : string)
| KmsCreateAlias (aliasName targetKeyId : string)
| KmsDeleteAlias (aliasName : string)
| KmsScheduleKeyDeletion (keyId : string) (pendingWindowInDays : N)
| S3ListBuckets
| S3CreateBucket (bucket : string)
| S3DeleteBucket (bucket : string)
| S3ListObjects (bucket prefix : string)
| S3GetObject (bucket key : string)
| S3DeleteObject (bucket key : string)
| S3Upload (bucket key : string) (body : File) (sse kmsID : string)
| RegexpCompile (expr : string)
| OsMkdirAll (path : string) (perm : N)
| OsOpenFile (name : string) (flag perm : N)
| OsOpen (name : string)
| FileWrite (f : File) (b : string)
| FileClose (f : File)
| TempFile (dir pattern : string)
| OsRemove (name : string)
| CmdRun (name : string) (args : list string)
| ExpandFiles (path : string)
| Output (r : LogRecord).

(** What each call answers.  [S3GetObject] stands for [GetObject] followed
    by [ioutil.ReadAll] of the body, as [getFileBlob] does. *)
Definition Resp (c : Call) : Type :=
  match c with
  | KmsListAliases => result (list AliasListEntry)
  | KmsCreateKey _ _ => result KeyMetadata
  | KmsCreateAlias _ _ => option error
  | KmsDeleteAlias _ => option error
  | KmsScheduleKeyDeletion _ _ => option error
  | S3ListBuckets => result (list Bucket)
  | S3CreateBucket _ => option error
  | S3DeleteBucket _ => option error
  | S3ListObjects _ _ => result (list Object)
  | S3GetObject _ _ => result string
  | S3DeleteObject _ _ => option error
  | S3Upload _ _ _ _ _ => option error
  | RegexpCompile _ => result Regexp
  | OsMkdirAll _ _ => option error
  | OsOpenFile _ _ _ => result File
  | OsOpen _ => result File
  | FileWrite _ _ => option error
  | FileClose _ => option error
  | TempFile _ _ => result File
  | OsRemove _ => option error
  | CmdRun _ _ => option error
  | ExpandFiles _ => result (list string)
  | Output _ => unit
  end.

(** A command body: it returns, panics (a nil pointer dereference), or makes
    a call and goes on with the answer. *)
Inductive Prog (A : Type) : Type :=
| Ret (a : A)
| Panic
| Vis (c : Call) (k : Resp c -> Prog A).
Arguments Ret {A} a.
Arguments Panic {A}.
Arguments Vis {A} c k.

Fixpoint bind {A B : Type} (p : Prog A) (f : A -> Prog B) : Prog B :=
  match p with
  | Ret a => f a
  | Panic => Panic
  | Vis c k => Vis c (fun r => bind (k r) f)
  end.

Definition call (c : Call) : Prog (Resp c) := Vis c Ret.

Notation "x <- p ;; q" := (bind p (fun x => q))
  (at level 61, p at next level, right associativity).
Notation "p ;;; q" := (bind p (fun _ => q))
  (at level 61, right associativity).

(** [for _, x := range xs { ... }] whose body either falls through to the
    next element ([None]) or makes the enclosing function return an error
    ([Some e]). *)
Fixpoint forEach {T : Type} (xs : list T) (body : T -> Prog (option error))
  : Prog (option error) :=
  match xs with
  | [] => Ret None
  | x :: xs' =>
      r <- body x ;;
      match r with
      | Some e => Ret (Some e)
      | None => forEach xs' body
      end
  end.

(** *** Running a program against an environment *)

Definition Handler (W : Type) : Type := forall c : Call, W -> Resp c * W.

Inductive Outcome (A : Type) : Type :=
| Returned (a : A)
| Panicked.
Arguments Returned {A} a.
Arguments Panicked {A}.

Fixpoint run {W A : Type} (h : Handler W) (p : Prog A) (w : W)
  : Outcome A * W * list Call :=
  match p with
  | Ret a => (Returned a, w, [])
  | Panic => (Panicked, w, [])
  | Vis c k =>
      let (r, w') := h c w in
      match run h (k r) w' with
      | (o, w'', t) => (o, w'', c :: t)
      end
  end.

Definition outcome {W A} (h : Handler W) (p : Prog A) (w : W) : Outcome A :=
  fst (fst (run h p w)).
Definition final {W A} (h : Handler W) (p : Prog A) (w : W) : W :=
  snd (fst (run h p w)).
Definition calls {W A} (h : Handler W) (p : Prog A) (w : W) : list Call :=
  snd (run h p w).

(** a program that never makes a call picked out by [P] *)
Fixpoint never {A : Type} (P : Call -> bool) (p : Prog A) : Prop :=
  match p with
  | Ret _ => True
  | Panic => True
  | Vis c k => P c = false /\ forall r, never P (k r)
  end.

(** kinds of calls *)
Definition isCompile (c : Call) : bool :=
  match c with
  | RegexpCompile _ => true
  | _ => false
  end.

(** the key a call fetches, and the key a call reports as retrieved *)
Definition fetched (c : Call) : list string :=
  match c with
  | S3GetObject _ key => [key]
  | _ => []
  end.

Definition retrieved (c : Call) : list string :=
  match c with
  | Output (LogGet source _ _) => [source]
  | _ => []
  end.

(** a fetch of a key that a regexp does not match *)
Definition fetchesUnmatched (re : Regexp) (c : Call) : bool :=
  match c with
  | S3GetObject _ key => negb (MatchString re key)
  | _ => false
  end.

(** a call that changes a bucket, or that opens a local file for reading
    it back *)
Definition changesBucket (c : Call) : bool :=
  match c with
  | S3CreateBucket _ | S3DeleteBucket _ | S3DeleteObject _ _
  | S3Upload _ _ _ _ _ => true
  | _ => false
  end.

Definition readsBackOrUploads (c : Call) : bool :=
  match c with
  | OsOpen _ | OsOpenFile _ _ _ | ExpandFiles _ => true
  | _ => changesBucket c
  end.

(** ** kms.go *)

(** [kmsKeys]: the aliases of one [ListAliases] call *)
Definition kmsKeys : Prog (result (list AliasListEntry)) :=
  call KmsListAliases.

(** the test of [getKmsAlias]'s loop:
    [strings.TrimLeft( *x.AliasName, "alias/") == name] *)
Definition aliasMatches (name : string) (x : AliasListEntry) : bool :=
  String.eqb (strings.TrimLeft (AliasName x) "alias/") name.

(** [getKmsAlias]: the loop leaves at the first alias that passes the test *)
Definition getKmsAlias (name : string) : Prog (result AliasListEntry) :=
  r <- kmsKeys ;;
  match r with
  | Err e => Ret (Err e)
  | Ok aliases =>
      match find (aliasMatches name) aliases with
      | None => Ret (Err errKmsNotFound)
      | Some alias => Ret (Ok alias)
      end
  end.

(** [hasKmsAlias] *)
Definition hasKmsAlias (name : string) : Prog (result bool) :=
  r <- getKmsAlias name ;;
  match r with
  | Err errKmsNotFound => Ret (Ok false)
  | Err e => Ret (Err e)
  | Ok _ => Ret (Ok true)
  end.

(** [listKeys] *)
Definition listKeys : Prog (option error) :=
  r <- kmsKeys ;;
  match r with
  | Err e => Ret (Some e)
  | Ok keys =>
      forEach keys (fun k =>
        match TargetKeyId k with
        | None => Ret None
        | Some id => call (Output (LogKey id (AliasName k))) ;;; Ret None
        end)
  end.

(** [createKey], with the flags [name] and [description] *)
Definition createKey (name description : string) : Prog (option error) :=
  let aliasName := "alias/" ++ name in
  r <- hasKmsAlias name ;;
  match r with
  | Err e => Ret (Some e)
  | Ok true => call (Output (LogKeyExists name)) ;;; Ret None
  | Ok false =>
      r <- call (KmsCreateKey description "AWS_KMS") ;;
      match r with
      | Err e => Ret (Some e)
      | Ok resp =>
          e <- call (KmsCreateAlias aliasName (Arn resp)) ;;
          match e with
          | Some e => Ret (Some e)
          | None =>
              call (Output (LogKeyCreated name (Arn resp) (AWSAccountId resp))) ;;;
              Ret None
          end
      end
  end.

(** [*p] on an optional field *)
Definition deref {A : Type} (p : option A) : Prog A :=
  match p with
  | Some a => Ret a
  | None => Panic
  end.

(** [deleteKey], with the flags [name] and [schedule-deletion] *)
Definition deleteKey (name : string) (deletion : bool) : Prog (option error) :=
  r <- getKmsAlias name ;;
  match r with
  | Err e => Ret (Some e)
  | Ok alias =>
      e <- call (KmsDeleteAlias (AliasName alias)) ;;
      match e with
      | Some e => Ret (Some e)
      | None =>
          e <- (if deletion then
                  keyId <- deref (TargetKeyId alias) ;;
                  call (KmsScheduleKeyDeletion keyId 7%N)
                else Ret None) ;;
          match e with
          | Some e => Ret (Some e)
          | None =>
              keyId <- deref (TargetKeyId alias) ;;
              call (Output (LogKeyDeleted (AliasName alias) keyId deletion)) ;;;
              Ret None
          end
      end
  end.

(** ** buckets.go and the bucket helpers of files.go *)

(** [listS3Buckets] *)
Definition listS3Buckets : Prog (result (list Bucket)) :=
  call S3ListBuckets.

(** [hasBucket] *)
Definition hasBucket (bucket : string) : Prog (result bool) :=
  r <- listS3Buckets ;;
  match r with
  | Err e => Ret (Err e)
  | Ok list => Ret (Ok (existsb (fun x => String.eqb bucket (Name x)) list))
  end.

(** the keys [listBucketKeys] lets through *)
Definition isDirectory (x : Object) : bool := strings.HasSuffix (Key x) "/".

(** [listBucketKeys] *)
Definition listBucketKeys (bucket prefix : string)
  : Prog (result (list Object)) :=
  r <- call (S3ListObjects bucket prefix) ;;
  match r with
  | Err e => Ret (Err e)
  | Ok contents => Ret (Ok (filter (fun x => negb (isDirectory x)) contents))
  end.

(** [sizeOfBucket] *)
Definition sizeOfBucket (name : string) : Prog (result nat) :=
  r <- listBucketKeys name "" ;;
  match r with
  | Err e => Ret (Err e)
  | Ok files => Ret (Ok (List.length files))
  end.

(** [createBucket], with the flag [name] *)
Definition createBucket (name : string) : Prog (option error) :=
  r <- hasBucket name ;;
  match r with
  | Err e => Ret (Some e)
  | Ok true => Ret (Some (Errorf "the bucket already exists"))
  | Ok false =>
      e <- call (S3CreateBucket name) ;;
      match e with
      | Some e => Ret (Some e)
      | None => call (Output (LogBucketCreated name)) ;;; Ret None
      end
  end.

(** [deleteBucket], with the flags [name] and [force] *)
Definition deleteBucket (name : string) (force : bool) : Prog (option error) :=
  r <- hasBucket name ;;
  match r with
  | Err e => Ret (Some e)
  | Ok false => Ret (Some (Errorf "the bucket does not exist"))
  | Ok true =>
      r <- sizeOfBucket name ;;
      match r with
      | Err e => Ret (Some e)
      | Ok count =>
          if (0 <? count)%nat && negb force then
            Ret (Some (Errorf
              "the bucket is not empty, either force (--force) deletion or empty the bucket"))
          else
            e <- (if (0 <? count)%nat then
                    r <- listBucketKeys name "" ;;
                    match r with
                    | Err e => Ret (Some e)
                    | Ok files =>
                        forEach files (fun x =>
                          e <- call (S3DeleteObject name (Key x)) ;;
                          match e with
                          | Some e =>
                              Ret (Some (Errorf
                                ("failed to remove the file: " ++ Key x
                                 ++ " from bucket, error: " ++ Error e)))
                          | None => Ret None
                          end)
                    end
                  else Ret None) ;;
            match e with
            | Some e => Ret (Some e)
            | None =>
                e <- call (S3DeleteBucket name) ;;
                match e with
                | Some e => Ret (Some e)
                | None => call (Output (LogBucketDeleted name)) ;;; Ret None
                end
            end
      end
  end.

(** ** files.go and get.go *)

(** [getPaths]: the arguments, or the one empty prefix *)
Definition getPaths (args : list string) : list string :=
  if (List.length args <=? 0)%nat then [""] else args.

(** [getFileBlob] (files.go), [getFile] (get.go) *)
Definition getFileBlob (bucket key : string) : Prog (result string) :=
  call (S3GetObject bucket key).

(** the report of one entry in [listFiles].  The long listing dereferences
    [Size], [StorageClass], [ETag] and [Owner] for the record, calls
    [fields], and then dereferences [Owner.DisplayName] and [LastModified]
    for the line. *)
Definition reportFile (detailed : bool) (k : Object) : Prog (option error) :=
  if detailed then
    deref (Size k) ;;;
    deref (StorageClass k) ;;;
    deref (ETag k) ;;;
    owner <- deref (Owner k) ;;
    call (Output (LogFileFields k)) ;;;
    deref (DisplayName owner) ;;;
    deref (LastModified k) ;;;
    call (Output (LogFile true k)) ;;;
    Ret None
  else call (Output (LogFile false k)) ;;; Ret None.

(** [listFiles], with the flags [bucket], [long] and [recursive] *)
Definition listFiles (bucket : string) (detailed recursive : bool)
  (args : list string) : Prog (option error) :=
  forEach (getPaths args) (fun p =>
    r <- listBucketKeys bucket p ;;
    match r with
    | Err e => Ret (Some e)
    | Ok files =>
        forEach files (fun k =>
          if strings.Contains (strings.TrimPrefix (Key k) p) "/"
             && negb recursive
          then Ret None
          else reportFile detailed k)
    end).

(** file modes and open flags (Linux values) *)
Definition perm0755 : N := 493%N.
Definition perm0744 : N := 484%N.
Definition O_RDWR : N := 2%N.
Definition O_CREATE : N := 64%N.
Definition O_TRUNC : N := 512%N.

(** the path [getFiles] opens for a key *)
Definition getFilename (outdir : string) (flatten : bool) (key : string)
  : string :=
  if strings.Contains key "/" && flatten
  then outdir ++ "/" ++ filepath.Base key
  else key.

Definition getFullPath (outdir : string) (flatten : bool) (key : string)
  : string :=
  outdir ++ "/" ++ getFilename outdir flatten key.

(** the second half of the body of [getFiles]'s loop: fetch the object,
    make the directory, open the file and write it *)
Definition retrieveFile (bucket outdir : string) (flatten : bool)
  (k : Object) : Prog (option error) :=
  r <- getFileBlob bucket (Key k) ;;
  match r with
  | Err e => Ret (Some e)
  | Ok content =>
      let filename := getFilename outdir flatten (Key k) in
      let fullPath := outdir ++ "/" ++ filename in
      e <- call (OsMkdirAll (outdir ++ "/" ++ filepath.Dir filename)
                            perm0755) ;;
      match e with
      | Some e => Ret (Some e)
      | None =>
          r <- call (OsOpenFile fullPath
                       (N.lor (N.lor O_CREATE O_TRUNC) O_RDWR) perm0744) ;;
          match r with
          | Err e => Ret (Some e)
          | Ok file =>
              e <- call (FileWrite file content) ;;
              match e with
              | Some e => Ret (Some e)
              | None =>
                  call (Output (LogGet (Key k) fullPath content)) ;;;
                  Ret None
              end
          end
      end
  end.

(** the body of [getFiles]'s loop over the keys of one prefix: the two
    [continue] tests, then the retrieval *)
Definition getOne (bucket outdir : string) (flatten recursive : bool)
  (filter : Regexp) (k : Object) : Prog (option error) :=
  let filename := Key k in
  if strings.Contains filename "/" && negb recursive then Ret None
  else if negb (MatchString filter (Key k)) then Ret None
  else retrieveFile bucket outdir flatten k.

(** [getFiles], with the flags [bucket], [output-dir], [flatten],
    [recursive] and [filter] *)
Definition getFiles (bucket outdir : string) (flatten recursive : bool)
  (filter : string) (args : list string) : Prog (option error) :=
  r <- call (RegexpCompile filter) ;;
  match r with
  | Err err =>
      Ret (Some (Errorf ("the filter: " ++ filter ++ " is invalid, message: "
                         ++ Error err)))
  | Ok filter =>
      e <- call (OsMkdirAll outdir perm0755) ;;
      match e with
      | Some e => Ret (Some e)
      | None =>
          forEach (getPaths args) (fun p =>
            let p := if strings.HasPrefix p "/"
                     then strings.TrimPrefix p "/" else p in
            r <- listBucketKeys bucket p ;;
            match r with
            | Err e => Ret (Some e)
            | Ok keys =>
                forEach keys (getOne bucket outdir flatten recursive filter)
            end)
      end
  end.

(** [putFile] *)
Definition putFile (bucket key path kmsID : string) : Prog (option error) :=
  r <- call (OsOpen path) ;;
  match r with
  | Err e => Ret (Some e)
  | Ok file => call (S3Upload bucket key file "aws:kms" kmsID)
  end.

(** [putFiles], with the flags [bucket], [kms] and [flatten];
    [expandFiles] is a call to the outside *)
Definition putFiles (bucket kms : string) (flatten : bool)
  (args : list string) : Prog (option error) :=
  r <- hasBucket bucket ;;
  match r with
  | Err e => Ret (Some e)
  | Ok false =>
      Ret (Some (Errorf ("the bucket: " ++ bucket ++ " does not exist")))
  | Ok true =>
      if (List.length args <=? 0)%nat then
        Ret (Some (Errorf "you have not specified any files to upload"))
      else
        forEach (getPaths args) (fun p =>
          r <- call (ExpandFiles p) ;;
          match r with
          | Err e =>
              Ret (Some (Errorf ("failed to process path: " ++ p
                                 ++ ", error: " ++ Error e)))
          | Ok files =>
              forEach files (fun filename =>
                let keyName :=
                  if flatten then filepath.Base filename else filename in
                e <- putFile bucket keyName filename kms ;;
                match e with
                | Some e =>
                    Ret (Some (Errorf ("failed to put the file: " ++ filename
                                       ++ ", error: " ++ Error e)))
                | None =>
                    call (Output (LogPut filename bucket keyName)) ;;;
                    Ret None
                end)
          end)
  end.

(** [inlineEditFile]; the deferred [os.Remove] runs on every way out once
    the temporary file exists, and its own result is dropped *)
Definition inlineEditFile (filename content editor : string)
  : Prog (option error) :=
  r <- call (TempFile "/tmp" (filename ++ ".XXXXXXXX")) ;;
  match r with
  | Err e => Ret (Some e)
  | Ok tmpfile =>
      res <- (e <- call (FileWrite tmpfile content) ;;
              match e with
              | Some e => Ret (Some e)
              | None =>
                  call (FileClose tmpfile) ;;;
                  e <- call (CmdRun editor [FileName tmpfile]) ;;
                  match e with
                  | Some e => Ret (Some e)
                  | None => Ret None
                  end
              end) ;;
      call (OsRemove (FileName tmpfile)) ;;;
      Ret res
  end.

(** [editFile], with the flag [bucket]; [EDITOR] is the value of the
    environment variable *)
Definition editFile (bucket EDITOR : string) (args : list string)
  : Prog (option error) :=
  let editor := if negb (String.eqb EDITOR "") then EDITOR else "vim" in
  forEach args (fun x =>
    r <- getFileBlob bucket x ;;
    match r with
    | Err e =>
        Ret (Some (Errorf ("unable to retrieve the file: " ++ x
                           ++ ", error: " ++ Error e)))
    | Ok content =>
        e <- inlineEditFile x content editor ;;
        match e with
        | Some e =>
            Ret (Some (Errorf ("unable to edit the file: " ++ x
                               ++ ", error: " ++ Error e)))
        | None => Ret None
        end
    end).

(** ** The rest of files.go *)

(** [hasKey] *)
Definition hasKey (key bucket : string) : Prog (result bool) :=
  r <- listBucketKeys bucket (filepath.Dir key) ;;
  match r with
  | Err e => Ret (Err e)
  | Ok keys => Ret (Ok (existsb (fun k => String.eqb key (Key k)) keys))
  end.

(** [catFiles], with the flag [bucket]; [out] is what has been printed on
    the standard output so far, and the result carries what has been
    printed when the command returns *)
Fixpoint catLoop (bucket : string) (args : list string) (out : string)
  : Prog (string * option error) :=
  match args with
  | [] => Ret (out, None)
  | filename :: args' =>
      r <- getFileBlob bucket filename ;;
      match r with
      | Err e => Ret (out, Some e)
      | Ok content => catLoop bucket args' (out ++ content)
      end
  end.

Definition catFiles (bucket : string) (args : list string)
  : Prog (string * option error) :=
  catLoop bucket args "".

(** ** formatter.go *)

(** the [io.Writer] of a formatter; the commands only ever pass
    [os.Stdout] *)
Inductive Writer : Type := Stdout.

Record formater : Type := {
  format : string;
  writer : Writer
}.

(** [newFormater]; the case for ["yml"] falls through to the empty case for
    ["yaml"] *)
Definition newFormater (format : string) (writer : Writer)
  : result formater :=
  if String.eqb format "yml" then Ok {| format := format; writer := writer |}
  else if String.eqb format "yaml"
  then Ok {| format := format; writer := writer |}
  else if String.eqb format "json"
  then Ok {| format := format; writer := writer |}
  else if String.eqb format "text"
  then Ok {| format := format; writer := writer |}
  else Err (Errorf "unsupport output format").

Section Rendering.

(** the values of a record, the arguments of a format, and the three
    library functions that render them *)
Variables Fields Arg : Type.
Variable yamlMarshal : Fields -> result string.
Variable jsonMarshal : Fields -> result string.
Variable Sprintf : string -> list Arg -> string.

(** [(r *formater) fields(v)]: what is written to [r.writer].  The encoded
    record is handed to [fmt.Fprintf] as its format, without arguments. *)
Definition fields (r : formater) (v : Fields) : string :=
  if String.eqb (format r) "yml" || String.eqb (format r) "yaml" then
    match yamlMarshal v with
    | Err _ => ""
    | Ok encode => Sprintf encode []
    end
  else if String.eqb (format r) "json" then
    match jsonMarshal v with
    | Err _ => ""
    | Ok encode => Sprintf encode []
    end
  else "".

(** [(r *formater) log(message, args...)]: what is written to
    [r.writer] *)
Definition log (r : formater) (message : string) (args : list Arg)
  : string :=
  if String.eqb (format r) "text" then Sprintf message args else "".

(** [o.fields(v).log(message, args...)], as every command reports *)
Definition report (r : formater) (v : Fields) (message : string)
  (args : list Arg) : string :=
  fields r v ++ log r message args.

End Rendering.

(** ** cmd.go *)

(** the methods of [cli.Context] that cmd.go calls *)
Record Context : Type := {
  IsSet : string -> bool;
  GlobalIsSet : string -> bool;
  GlobalString : string -> string
}.

(** how a command line ends: [os.Exit(1)] after a line on the standard
    error, or a plain return *)
Inductive Exit : Type :=
| Exited (stderr : string)
| Completed.

Definition newline : string := String (ascii_of_nat 10) EmptyString.

(** [printError], its message already formatted: the line it prints before
    it exits *)
Definition printError (message : string) : string :=
  "[error] " ++ message ++ newline.

(** the loop of [handleCommand] over the required options, [TYPE:NAME];
    [Some line] when [printError] was reached *)
Fixpoint checkOptions (cx : Context) (options : list string)
  : Prog (option string) :=
  match options with
  | [] => Ret None
  | k :: options' =>
      match strings.Split k ":" with
      | [otype; name] =>
          if String.eqb otype "g" then
            if negb (GlobalIsSet cx name)
            then Ret (Some (printError ("the global option: '" ++ name
                                        ++ "' is required for this command")))
            else checkOptions cx options'
          else
            if negb (IsSet cx name)
            then Ret (Some (printError ("the command option '" ++ name
                                        ++ "' is required")))
            else checkOptions cx options'
      | _ => Panic
      end
  end.

(** a required option that is well formed and set *)
Definition requiredSet (cx : Context) (k : string) : Prop :=
  exists otype name : string,
    strings.Split k ":" = [otype; name] /\
    (if String.eqb otype "g" then GlobalIsSet cx name else IsSet cx name)
    = true.

(** [handleCommand] *)
Definition handleCommand (cx : Context) (options : list string)
  (method : formater -> Context -> Prog (option error)) : Prog Exit :=
  missing <- checkOptions cx options ;;
  match missing with
  | Some line => Ret (Exited line)
  | None =>
      match newFormater (GlobalString cx "format") Stdout with
      | Err err => Ret (Exited (printError ("error: " ++ Error err)))
      | Ok writer =>
          err <- method writer cx ;;
          match err with
          | Some err =>
              Ret (Exited (printError ("operation failed, error: "
                                       ++ Error err)))
          | None => Ret Completed
          end
      end
  end.

(** [credentials.Credentials], by constructor *)
Inductive Credentials : Type :=
| NewStaticCredentials (id secret token : string)
| NewSharedCredentials (filename profile : string).

(** [aws.Config], as far as [getCredentials] fills it *)
Record Config : Type := {
  Region : string;
  ConfigCredentials : option Credentials
}.

(** what the [Before] hook does: exit, return an error, or build the three
    clients from one configuration and return [nil] *)
Inductive Before : Type :=
| BeforeExit (stderr : string)
| BeforeError (e : error)
| BeforeClients (config : Config).

(** the function [getCredentials] returns *)
Definition getCredentials (cx : Context) : Before :=
  if String.eqb (GlobalString cx "region") "" then
    BeforeExit ("[error] you have not specified the aws region the resources reside"
                ++ newline)
  else
    let region := GlobalString cx "region" in
    if negb (String.eqb (GlobalString cx "access-key") "")
       || negb (String.eqb (GlobalString cx "secret-ket") "") then
      if String.eqb (GlobalString cx "secret-key") "" then
        BeforeError (Errorf "you have specified a access key with a secret key")
      else if String.eqb (GlobalString cx "access-key") "" then
        BeforeError (Errorf "you have specified a secret key with a access key")
      else
        BeforeClients
          {| Region := region;
             ConfigCredentials :=
               Some (NewStaticCredentials (GlobalString cx "access-key")
                       (GlobalString cx "secret-key")
                       (GlobalString cx "session-token")) |}
    else if negb (String.eqb (GlobalString cx "profile") "") then
      BeforeClients
        {| Region := region;
           ConfigCredentials :=
             Some (NewSharedCredentials (GlobalString cx "credentials")
                     (GlobalString cx "profile")) |}
    else
      BeforeClients {| Region := region; ConfigCredentials := None |}.

(** the names of the global flags, from [getGlobalOptions] *)
Definition globalFlagNames : list string :=
  ["profile"; "credentials"; "access-key"; "secret-key"; "output-dir";
   "session-token"; "region"; "format"].

(** a context over the global flags: a flag that is not defined reads as
    the empty string *)
Definition globalContext (values : string -> string) (set : string -> bool)
  : Context :=
  {| IsSet := fun _ => false;
     GlobalIsSet := fun name => existsb (String.eqb name) globalFlagNames
                                && set name;
     GlobalString := fun name =>
       if existsb (String.eqb name) globalFlagNames then values name
       else "" |}.

(** kinds of calls, for the statements below *)
Definition isSchedule (c : Call) : bool :=
  match c with
  | KmsScheduleKeyDeletion _ _ => true
  | _ => false
  end.

Definition schedulesOtherWindow (c : Call) : bool :=
  match c with
  | KmsScheduleKeyDeletion _ days => negb (N.eqb days 7)
  | _ => false
  end.

Definition isDeleteObject (c : Call) : bool :=
  match c with
  | S3DeleteObject _ _ => true
  | _ => false
  end.

(** a call that deletes from, or deletes, a bucket other than [name] *)
Definition deletesElsewhere (name : string) (c : Call) : bool :=
  match c with
  | S3DeleteObject b _ => negb (String.eqb b name)
  | S3DeleteBucket b => negb (String.eqb b name)
  | _ => false
  end.

(** anything but a listing of [bucket] or a record for the formatter *)
Definition beyondListing (bucket : string) (c : Call) : bool :=
  match c with
  | S3ListObjects b _ => negb (String.eqb b bucket)
  | Output _ => false
  | _ => true
  end.

(** a call to KMS, a call that changes a bucket, or a call to S3 that names
    a bucket other than [bucket] *)
Definition beyondDownload (bucket : string) (c : Call) : bool :=
  match c with
  | KmsListAliases | KmsCreateKey _ _ | KmsCreateAlias _ _
  | KmsDeleteAlias _ | KmsScheduleKeyDeletion _ _ => true
  | S3ListBuckets => true
  | S3ListObjects b _ => negb (String.eqb b bucket)
  | S3GetObject b _ => negb (String.eqb b bucket)
  | OsOpen _ | ExpandFiles _ | TempFile _ _ | OsRemove _ | CmdRun _ _
  | FileClose _ => true
  | c => changesBucket c
  end.

(** an upload that is not to [bucket], encrypted under [kms] *)
Definition uploadsOtherwise (bucket kms : string) (c : Call) : bool :=
  match c with
  | S3Upload b _ _ sse k =>
      negb (String.eqb b bucket && String.eqb sse "aws:kms"
            && String.eqb k kms)
  | _ => false
  end.

(** a run of a program other than [editor], or of [editor] on anything but
    one argument *)
Definition runsOtherwise (editor : string) (c : Call) : bool :=
  match c with
  | CmdRun name args =>
      negb (String.eqb name editor && (List.length args =? 1)%nat)
  | _ => false
  end.

(** an entry with every field the long listing dereferences *)
Definition complete (k : Object) : bool :=
  match Size k, StorageClass k, ETag k, Owner k, LastModified k with
  | Some _, Some _, Some _, Some owner, Some _ =>
      match DisplayName owner with
      | Some _ => true
      | None => false
      end
  | _, _, _, _, _ => false
  end.

(** anything but a call to KMS or a record for the formatter *)
Definition beyondKms (c : Call) : bool :=
  match c with
  | KmsListAliases | KmsCreateKey _ _ | KmsCreateAlias _ _
  | KmsDeleteAlias _ | KmsScheduleKeyDeletion _ _ | Output _ => false
  | _ => true
  end.

(** ** A reference environment

    An in-memory account with its KMS aliases, its buckets and a local file
    system, against which the commands can be run.  It answers as the
    services do where the commands can tell: [DeleteBucket] refuses a bucket
    that still holds objects, [ListObjects] returns the objects under the
    prefix in their stored order (markers included), [OpenFile] with
    [O_TRUNC] empties the file. *)

Module Mem.

Record World : Type := mkWorld {
  aliases : list AliasListEntry;
  scheduled : list (string * N);
  buckets : list (string * list (string * string));
  regexps : string -> result Regexp;
  files : list (string * string);
  dirs : list string;
  output : list LogRecord
}.

Section Assoc.
Context {V : Type}.

Fixpoint lookup (k : string) (l : list (string * V)) : option V :=
  match l with
  | [] => None
  | (k', v) :: l' => if String.eqb k k' then Some v else lookup k l'
  end.

Definition remove (k : string) (l : list (string * V))
  : list (string * V) :=
  filter (fun kv => negb (String.eqb k (fst kv))) l.

(** replace the value at [k], or add the pair at the end *)
Fixpoint store (k : string) (v : V) (l : list (string * V))
  : list (string * V) :=
  match l with
  | [] => [(k, v)]
  | (k', v') :: l' =>
      if String.eqb k k' then (k, v) :: l' else (k', v') :: store k v l'
  end.
End Assoc.

Definition setAliases (w : World) (a : list AliasListEntry) : World :=
  mkWorld a (scheduled w) (buckets w) (regexps w) (files w) (dirs w)
          (output w).
Definition setScheduled (w : World) (s : list (string * N)) : World :=
  mkWorld (aliases w) s (buckets w) (regexps w) (files w) (dirs w)
          (output w).
Definition setBuckets (w : World)
  (b : list (string * list (string * string))) : World :=
  mkWorld (aliases w) (scheduled w) b (regexps w) (files w) (dirs w)
          (output w).
Definition setFiles (w : World) (f : list (string * string)) : World :=
  mkWorld (aliases w) (scheduled w) (buckets w) (regexps w) f (dirs w)
          (output w).
Definition setDirs (w : World) (d : list string) : World :=
  mkWorld (aliases w) (scheduled w) (buckets w) (regexps w) (files w) d
          (output w).
Definition setOutput (w : World) (o : list LogRecord) : World :=
  mkWorld (aliases w) (scheduled w) (buckets w) (regexps w) (files w)
          (dirs w) o.

Definition hasAlias (n : string) (w : World) : bool :=
  existsb (fun x => String.eqb n (AliasName x)) (aliases w).

(** the listing entry of a stored object, every field filled in *)
Definition toObject (kv : string * string) : Object :=
  {| Key := fst kv;
     Size := Some (N.of_nat (String.length (snd kv)));
     StorageClass := Some "STANDARD";
     ETag := Some "";
     Owner := Some {| DisplayName := Some "owner"; ID := Some "" |};
     LastModified := Some "01 Jan 15 00:00 UTC" |}.

Definition handle : Handler World := fun c w =>
  match c as c0 return Resp c0 * World with
  | KmsListAliases => (Ok (aliases w), w)
  | KmsCreateKey description _ =>
      (Ok {| Arn := "arn:aws:kms:key/" ++ description;
             AWSAccountId := "123456789012" |}, w)
  | KmsCreateAlias n t =>
      if hasAlias n w then (Some (External "AlreadyExistsException"), w)
      else (None, setAliases w
              (aliases w ++ [{| AliasName := n; TargetKeyId := Some t |}])%list)
  | KmsDeleteAlias n =>
      if hasAlias n w
      then (None, setAliases w
              (filter (fun x => negb (String.eqb n (AliasName x)))
                      (aliases w)))
      else (Some (External "NotFoundException"), w)
  | KmsScheduleKeyDeletion keyId days =>
      (None, setScheduled w (scheduled w ++ [(keyId, days)])%list)
  | S3ListBuckets =>
      (Ok (map (fun b => {| Name := fst b |}) (buckets w)), w)
  | S3CreateBucket b =>
      match lookup b (buckets w) with
      | Some _ => (Some (External "BucketAlreadyExists"), w)
      | None => (None, setBuckets w (buckets w ++ [(b, [])])%list)
      end
  | S3DeleteBucket b =>
      match lookup b (buckets w) with
      | None => (Some (External "NoSuchBucket"), w)
      | Some [] => (None, setBuckets w (remove b (buckets w)))
      | Some (_ :: _) => (Some (External "BucketNotEmpty"), w)
      end
  | S3ListObjects b prefix =>
      match lookup b (buckets w) with
      | None => (Err (External "NoSuchBucket"), w)
      | Some objs =>
          (Ok (map toObject
                 (filter (fun kv => strings.HasPrefix (fst kv) prefix) objs)),
           w)
      end
  | S3GetObject b k =>
      match lookup b (buckets w) with
      | None => (Err (External "NoSuchBucket"), w)
      | Some objs =>
          match lookup k objs with
          | None => (Err (External "NoSuchKey"), w)
          | Some content => (Ok content, w)
          end
      end
  | S3DeleteObject b k =>
      match lookup b (buckets w) with
      | None => (Some (External "NoSuchBucket"), w)
      | Some objs => (None, setBuckets w (store b (remove k objs) (buckets w)))
      end
  | S3Upload b k body _ _ =>
      match lookup b (buckets w), lookup (FileName body) (files w) with
      | Some objs, Some content =>
          (None, setBuckets w (store b (store k content objs) (buckets w)))
      | None, _ => (Some (External "NoSuchBucket"), w)
      | _, None => (Some (External "read: bad file descriptor"), w)
      end
  | RegexpCompile expr => (regexps w expr, w)
  | OsMkdirAll path _ => (None, setDirs w (path :: dirs w))
  | OsOpenFile name flag _ =>
      match lookup name (files w) with
      | Some _ =>
          if N.testbit flag 9
          then (Ok {| FileName := name |}, setFiles w (store name "" (files w)))
          else (Ok {| FileName := name |}, w)
      | None =>
          if N.testbit flag 6
          then (Ok {| FileName := name |}, setFiles w (store name "" (files w)))
          else (Err (External "no such file or directory"), w)
      end
  | OsOpen name =>
      match lookup name (files w) with
      | Some _ => (Ok {| FileName := name |}, w)
      | None => (Err (External "no such file or directory"), w)
      end
  | FileWrite f b =>
      match lookup (FileName f) (files w) with
      | Some content =>
          (None, setFiles w (store (FileName f) (content ++ b) (files w)))
      | None => (Some (External "bad file descriptor"), w)
      end
  | FileClose _ => (None, w)
  | TempFile dir pattern =>
      let name := dir ++ "/" ++ pattern ++ "0" in
      (Ok {| FileName := name |}, setFiles w (store name "" (files w)))
  | OsRemove name =>
      match lookup name (files w) with
      | Some _ => (None, setFiles w (remove name (files w)))
      | None => (Some (External "no such file or directory"), w)
      end
  | CmdRun _ _ => (None, w)
  | ExpandFiles path =>
      match lookup path (files w) with
      | Some _ => (Ok [path], w)
      | None => (Err (External "no such file or directory"), w)
      end
  | Output r => (tt, setOutput w (output w ++ [r])%list)
  end.

(** a regexp compiler that knows the default filter [".*"] only *)
Definition onlyMatchAll (expr : string) : result Regexp :=
  if String.eqb expr ".*" then Ok {| MatchString := fun _ => true |}
  else Err (External "error parsing regexp").

End Mem.

(** ** Accounts used in the examples *)

Module Scenario.
Import Mem.

Definition account (a : list AliasListEntry)
  (b : list (string * list (string * string))) : World :=
  mkWorld a [] b onlyMatchAll [] [] [].

(** a bucket with one file directly under ["a/"] and one a level below *)
Definition nested : World :=
  account [] [("b", [("a/1.txt", "one"); ("a/b/2.txt", "two")])].

(** a bucket with a directory marker next to a file *)
Definition marked : World :=
  account [] [("b", [("dir/", ""); ("dir/a.txt", "x")])].

(** a bucket that holds a directory marker and nothing else *)
Definition markerOnly : World :=
  account [] [("b", [("dir/", "")])].

(** a bucket with one file two levels down *)
Definition deep : World :=
  account [] [("b", [("dir/sub/file.txt", "secret")])].

(** an empty bucket, and a key alias named prod *)
Definition prod : World :=
  account [{| AliasName := "alias/prod"; TargetKeyId := Some "key-1" |}]
          [("b", [])].

(** key aliases named sales and es *)
Definition sales : World :=
  account [{| AliasName := "alias/sales"; TargetKeyId := Some "key-1" |};
           {| AliasName := "alias/es"; TargetKeyId := Some "key-2" |}] [].

(** an alias that points at no key *)
Definition dangling : World :=
  account [{| AliasName := "alias/old"; TargetKeyId := None |}] [].

(** a bucket with one secret, and a local file to upload *)
Definition vault : World :=
  mkWorld [] [] [("b", [("secret.txt", "hunter2")])] onlyMatchAll
          [("notes.txt", "n")] [] [].

(** a regexp compiler that knows, besides the default filter, the pattern
    for keys that end in [.txt] *)
Definition knowsTxt (expr : string) : result Regexp :=
  if String.eqb expr "\.txt$"
  then Ok {| MatchString := fun s => strings.HasSuffix s ".txt" |}
  else onlyMatchAll expr.

(** a bucket with a text file and a binary next to it *)
Definition mixed : World :=
  mkWorld [] [] [("b", [("a.txt", "text"); ("a.bin", "bits")])] knowsTxt
          [] [] [].

End Scenario.

(** * Properties *)

(** ** Runs *)

Lemma run_bind {W A B : Type} (h : Handler W) (p : Prog A) (f : A -> Prog B)
  (w : W) :
  run h (bind p f) w =
  match run h p w with
  | (Returned a, w', t) =>
      match run h (f a) w' with
      | (o, w'', t') => (o, w'', (t ++ t')%list)
      end
  | (Panicked, w', t) => (Panicked, w', t)
  end.
Proof.
  revert w; induction p as [a | | c k IH]; intro w; simpl.
  - destruct (run h (f a) w) as [[o w''] t']; reflexivity.
  - reflexivity.
  - destruct (h c w) as [r w']. rewrite IH.
    destruct (run h (k r) w') as [[[a |] w1] t]; [| reflexivity].
    destruct (run h (f a) w1) as [[o w''] t']; reflexivity.
Qed.

Lemma run_call {W A : Type} (h : Handler W) (c : Call)
  (k : Resp c -> Prog A) (w : W) :
  run h (Vis c k) w =
  match run h (k (fst (h c w))) (snd (h c w)) with
  | (o, w'', t) => (o, w'', c :: t)
  end.
Proof. simpl. destruct (h c w); reflexivity. Qed.

Lemma never_bind {A B : Type} (P : Call -> bool) (p : Prog A)
  (f : A -> Prog B) :
  never P p -> (forall a, never P (f a)) -> never P (bind p f).
Proof.
  induction p as [a | | c k IH]; simpl; intros Hp Hf; auto.
  destruct Hp as [Hc Hk]. split; auto.
Qed.

Lemma never_forEach {T : Type} (P : Call -> bool) (xs : list T)
  (body : T -> Prog (option error)) :
  (forall x, never P (body x)) -> never P (forEach xs body).
Proof.
  intro Hb. induction xs as [| x xs IH]; simpl; [exact I |].
  apply never_bind; [apply Hb |].
  intros [e |]; simpl; auto.
Qed.

Lemma never_calls {W A : Type} (P : Call -> bool) (h : Handler W)
  (p : Prog A) (w : W) :
  never P p -> Forall (fun c => P c = false) (calls h p w).
Proof.
  unfold calls. revert w. induction p as [a | | c k IH]; simpl; intros w Hp.
  - constructor.
  - constructor.
  - destruct Hp as [Hc Hk]. destruct (h c w) as [r w'].
    specialize (IH r w' (Hk r)).
    destruct (run h (k r) w') as [[o w''] t]; simpl in *.
    constructor; assumption.
Qed.

(** a loop with guards is the loop of the guarded body over the elements
    that pass the guard *)
Lemma forEach_filter {T : Type} (keep : T -> bool) (xs : list T)
  (body : T -> Prog (option error)) :
  forEach xs (fun x => if keep x then body x else Ret None) =
  forEach (filter keep xs) body.
Proof.
  induction xs as [| x xs IH]; simpl; [reflexivity |].
  destruct (keep x); simpl; [rewrite IH; reflexivity | exact IH].
Qed.

Lemma filter_none {T : Type} (P : T -> bool) (l : list T) :
  Forall (fun x => P x = false) l -> List.filter P l = [].
Proof.
  induction 1 as [| x l Hx _ IH]; [reflexivity |].
  cbn [List.filter]. rewrite Hx. exact IH.
Qed.

Lemma existsb_Name (bucket : string) (list : list Bucket) :
  existsb (fun x => String.eqb bucket (Name x)) list = true <->
  In bucket (map Name list).
Proof.
  rewrite existsb_exists, in_map_iff. split.
  - intros [x [Hin Heq]]. apply String.eqb_eq in Heq. eauto.
  - intros [x [Heq Hin]]. exists x. split; [exact Hin |].
    apply String.eqb_eq. congruence.
Qed.

(** ** Traversal: [listBucketKeys] *)

(** C4.  Whatever the provider lists for a bucket and a prefix,
    [listBucketKeys] returns the listed entries whose key does not end with
    the separator, in the provider's order: no returned entry has a key
    ending with ["/"], and every listed entry whose key does not end with
    ["/"] is returned. *)
Theorem listBucketKeys_no_directory_markers :
  forall (W : Type) (h : Handler W) (w : W) (bucket prefix : string)
         (contents : list Object),
    fst (h (S3ListObjects bucket prefix) w) = Ok contents ->
    exists list : list Object,
      outcome h (listBucketKeys bucket prefix) w = Returned (Ok list) /\
      list = filter (fun x => negb (strings.HasSuffix (Key x) "/")) contents /\
      Forall (fun x => strings.HasSuffix (Key x) "/" = false) list /\
      (forall x, In x contents ->
                 strings.HasSuffix (Key x) "/" = false -> In x list) /\
      (forall x, In x list -> In x contents).
Proof.
  intros W h w bucket prefix contents Hresp.
  exists (filter (fun x => negb (isDirectory x)) contents).
  unfold outcome, listBucketKeys. simpl bind. rewrite run_call, Hresp. simpl.
  repeat split.
  - apply Forall_forall. intros x Hx. apply filter_In in Hx.
    destruct Hx as [_ Hx]. unfold isDirectory in Hx.
    apply negb_true_iff in Hx. exact Hx.
  - intros x Hin Hx. apply filter_In. split; [exact Hin |].
    unfold isDirectory. rewrite Hx. reflexivity.
  - intros x Hx. apply filter_In in Hx. tauto.
Qed.

Lemma listBucketKeys_no_directory_markers_witness :
  exists list : list Object,
    outcome Mem.handle (listBucketKeys "b" "dir/") Scenario.marked
    = Returned (Ok list) /\
    list = filter (fun x => negb (strings.HasSuffix (Key x) "/"))
                  [(Mem.toObject ("dir/", ""));
                   (Mem.toObject ("dir/a.txt", "x"))] /\
    Forall (fun x => strings.HasSuffix (Key x) "/" = false) list /\
    (forall x, In x [(Mem.toObject ("dir/", ""));
                     (Mem.toObject ("dir/a.txt", "x"))] ->
               strings.HasSuffix (Key x) "/" = false -> In x list) /\
    (forall x, In x list ->
               In x [(Mem.toObject ("dir/", ""));
                     (Mem.toObject ("dir/a.txt", "x"))]).
Proof.
  apply (listBucketKeys_no_directory_markers Mem.World Mem.handle
           Scenario.marked "b" "dir/").
  reflexivity.
Defined.

Example listBucketKeys_marked :
  outcome Mem.handle (listBucketKeys "b" "") Scenario.marked
  = Returned (Ok [(Mem.toObject ("dir/a.txt", "x"))]).
Proof. reflexivity. Qed.

(** ** Upload: [putFiles] *)

(** C6.  [putFiles] looks at the bucket list first.  When the listing does
    not name the target bucket, it returns the bucket-does-not-exist error
    and the bucket listing is the only call it has made: no path was
    expanded, no file opened, nothing uploaded.  When the bucket is listed
    but no path argument was given, it returns the no-files error, again
    with the bucket listing as its only call. *)
Theorem putFiles_checks_before_work :
  forall (W : Type) (h : Handler W) (w : W) (bucket kms : string)
         (flatten : bool) (args : list string) (list : list Bucket),
    fst (h S3ListBuckets w) = Ok list ->
    (~ In bucket (map Name list) ->
     outcome h (putFiles bucket kms flatten args) w
     = Returned (Some (Errorf ("the bucket: " ++ bucket ++ " does not exist")))
     /\ calls h (putFiles bucket kms flatten args) w = [S3ListBuckets])
    /\
    (In bucket (map Name list) -> args = [] ->
     outcome h (putFiles bucket kms flatten args) w
     = Returned (Some (Errorf "you have not specified any files to upload"))
     /\ calls h (putFiles bucket kms flatten args) w = [S3ListBuckets]).
Proof.
  intros W h w bucket kms flatten args list Hresp.
  unfold outcome, calls, putFiles, hasBucket, listS3Buckets, call.
  simpl bind. rewrite run_call, Hresp. cbn [bind].
  split.
  - intro Hnot.
    destruct (existsb (fun x => String.eqb bucket (Name x)) list) eqn:E.
    + apply existsb_Name in E. contradiction.
    + simpl. split; reflexivity.
  - intros Hin Hargs. subst args.
    apply existsb_Name in Hin. rewrite Hin. simpl. split; reflexivity.
Qed.

Lemma putFiles_checks_before_work_witness :
  (outcome Mem.handle (putFiles "nope" "key-1" false ["notes.txt"])
           Scenario.vault
   = Returned (Some (Errorf "the bucket: nope does not exist"))
   /\ calls Mem.handle (putFiles "nope" "key-1" false ["notes.txt"])
            Scenario.vault = [S3ListBuckets])
  /\
  (outcome Mem.handle (putFiles "b" "key-1" false []) Scenario.vault
   = Returned (Some (Errorf "you have not specified any files to upload"))
   /\ calls Mem.handle (putFiles "b" "key-1" false []) Scenario.vault
      = [S3ListBuckets]).
Proof.
  split.
  - apply (proj1 (putFiles_checks_before_work Mem.World Mem.handle
                    Scenario.vault "nope" "key-1" false ["notes.txt"]
                    [{| Name := "b" |}] eq_refl)).
    simpl. intros [H | []]. discriminate H.
  - apply (proj2 (putFiles_checks_before_work Mem.World Mem.handle
                    Scenario.vault "b" "key-1" false []
                    [{| Name := "b" |}] eq_refl)).
    + simpl. left. reflexivity.
    + reflexivity.
Defined.

Example putFiles_uploads :
  calls Mem.handle (putFiles "b" "key-1" false ["notes.txt"]) Scenario.vault
  = [S3ListBuckets; ExpandFiles "notes.txt"; OsOpen "notes.txt";
     S3Upload "b" "notes.txt" {| FileName := "notes.txt" |} "aws:kms" "key-1";
     Output (LogPut "notes.txt" "b" "notes.txt")].
Proof. reflexivity. Qed.

(** ** Download: the pattern filter of [getFiles] *)

Lemma calls_Vis {W A : Type} (h : Handler W) (c : Call)
  (k : Resp c -> Prog A) (w : W) :
  calls h (Vis c k) w = c :: calls h (k (fst (h c w))) (snd (h c w)).
Proof.
  unfold calls. rewrite run_call.
  destruct (run h (k (fst (h c w))) (snd (h c w))) as [[o w''] t].
  reflexivity.
Qed.

Lemma outcome_Vis {W A : Type} (h : Handler W) (c : Call)
  (k : Resp c -> Prog A) (w : W) :
  outcome h (Vis c k) w = outcome h (k (fst (h c w))) (snd (h c w)).
Proof.
  unfold outcome. rewrite run_call.
  destruct (run h (k (fst (h c w))) (snd (h c w))) as [[o w''] t].
  reflexivity.
Qed.

Ltac never_step :=
  match goal with
  | |- never _ (forEach _ _) => apply never_forEach; intro
  | |- never _ (if ?b then _ else _) => destruct b
  | |- never _ (match ?r with _ => _ end) => destruct r
  | |- never _ (bind (if ?b then _ else _) _) => destruct b
  | |- never _ (bind (match ?r with _ => _ end) _) => destruct r
  | |- never _ (Vis _ _) => cbn [never]; split; [| intro]
  | |- never _ (Ret _) => exact I
  | |- never _ Panic => exact I
  | |- never _ _ => progress cbn [bind call]
  | |- _ /\ _ => split
  | |- forall _, _ => intro
  end.

(** the loop body of [getFiles] makes none of the calls [P] picks out, as
    long as [P] leaves alone what the body does for a matching key *)
Lemma never_getOne (P : Call -> bool) (bucket outdir : string)
  (flatten recursive : bool) (re : Regexp) (k : Object) :
  (forall key, MatchString re key = true -> P (S3GetObject bucket key) = false) ->
  (forall path perm, P (OsMkdirAll path perm) = false) ->
  (forall name flag perm, P (OsOpenFile name flag perm) = false) ->
  (forall f b, P (FileWrite f b) = false) ->
  (forall r, P (Output r) = false) ->
  never P (getOne bucket outdir flatten recursive re k).
Proof.
  intros Hget Hmk Hopen Hwr Hout.
  unfold getOne.
  destruct (strings.Contains (Key k) "/" && negb recursive); [exact I |].
  destruct (MatchString re (Key k)) eqn:Hm; [| exact I].
  unfold retrieveFile, getFileBlob; simpl negb; cbv iota.
  repeat never_step; auto.
Qed.

Lemma never_getFiles_loop (P : Call -> bool) (bucket outdir : string)
  (flatten recursive : bool) (re : Regexp) (paths : list string) :
  (forall key, MatchString re key = true -> P (S3GetObject bucket key) = false) ->
  (forall b p, P (S3ListObjects b p) = false) ->
  (forall path perm, P (OsMkdirAll path perm) = false) ->
  (forall name flag perm, P (OsOpenFile name flag perm) = false) ->
  (forall f b, P (FileWrite f b) = false) ->
  (forall r, P (Output r) = false) ->
  never P
    (forEach paths (fun p =>
       let p := if strings.HasPrefix p "/"
                then strings.TrimPrefix p "/" else p in
       r <- listBucketKeys bucket p ;;
       match r with
       | Err e => Ret (Some e)
       | Ok keys =>
           forEach keys (getOne bucket outdir flatten recursive re)
       end)).
Proof.
  intros Hget Hls Hmk Hopen Hwr Hout.
  apply never_forEach. intro p. unfold listBucketKeys.
  cbn [bind call never]. split; [apply Hls |].
  intros [contents | e]; cbn [bind]; [| exact I].
  apply never_forEach. intro k. apply never_getOne; assumption.
Qed.

(** the compilation of the filter, and what follows from its answer *)
Lemma getFiles_compiles_once :
  forall (W : Type) (h : Handler W) (w : W) (bucket outdir : string)
         (flatten recursive : bool) (filter : string) (args : list string),
    List.length
      (List.filter isCompile
         (calls h (getFiles bucket outdir flatten recursive filter args) w))
    = 1
    /\
    (forall err : error,
        fst (h (RegexpCompile filter) w) = Err err ->
        outcome h (getFiles bucket outdir flatten recursive filter args) w
        = Returned (Some (Errorf ("the filter: " ++ filter
                                  ++ " is invalid, message: " ++ Error err)))
        /\ calls h (getFiles bucket outdir flatten recursive filter args) w
           = [RegexpCompile filter])
    /\
    (forall re : Regexp,
        fst (h (RegexpCompile filter) w) = Ok re ->
        Forall (fun c => fetchesUnmatched re c = false)
          (calls h (getFiles bucket outdir flatten recursive filter args) w)
        /\
        forall keys : list Object,
          forEach keys (getOne bucket outdir flatten recursive re)
          = forEach
              (List.filter (fun k => MatchString re (Key k))
                 (List.filter
                    (fun k => negb (strings.Contains (Key k) "/"
                                    && negb recursive)) keys))
              (retrieveFile bucket outdir flatten)).
Proof.
  intros W h w bucket outdir flatten recursive filter args.
  unfold getFiles. cbn [bind call].
  rewrite calls_Vis, outcome_Vis.
  destruct (fst (h (RegexpCompile filter) w)) as [re | err0] eqn:Hc.
  - (* the pattern compiles *)
    cbn [bind call].
    assert (Hrest : forall P : Call -> bool,
      (forall key, MatchString re key = true ->
                   P (S3GetObject bucket key) = false) ->
      (forall b p, P (S3ListObjects b p) = false) ->
      (forall path perm, P (OsMkdirAll path perm) = false) ->
      (forall name flag perm, P (OsOpenFile name flag perm) = false) ->
      (forall f b, P (FileWrite f b) = false) ->
      (forall r, P (Output r) = false) ->
      forall w', Forall (fun c => P c = false)
        (calls h
           (Vis (OsMkdirAll outdir perm0755) (fun e =>
              match e with
              | Some e0 => Ret (Some e0)
              | None =>
                  forEach (getPaths args) (fun p =>
                    let p := if strings.HasPrefix p "/"
                             then strings.TrimPrefix p "/" else p in
                    r <- listBucketKeys bucket p ;;
                    match r with
                    | Err e0 => Ret (Some e0)
                    | Ok keys =>
                        forEach keys
                          (getOne bucket outdir flatten recursive re)
                    end)
              end)) w')).
    { intros P Hget Hls Hmk Hopen Hwr Hout w'.
      apply never_calls. cbn [never]. split; [apply Hmk |].
      intros [e0 |]; [exact I |].
      apply never_getFiles_loop; assumption. }
    split; [| split].
    + assert (Hnone := Hrest isCompile
                (fun _ _ => eq_refl) (fun _ _ => eq_refl)
                (fun _ _ => eq_refl) (fun _ _ _ => eq_refl)
                (fun _ _ => eq_refl) (fun _ => eq_refl)
                (snd (h (RegexpCompile filter) w))).
      cbn [List.filter isCompile List.length]. f_equal.
      exact (f_equal (@List.length Call) (filter_none isCompile _ Hnone)).
    + intros err Herr. discriminate Herr.
    + intros re' Hre. injection Hre as <-. split.
      * constructor; [reflexivity |].
        apply Hrest; try (intros; reflexivity).
        intros key Hm. cbn [fetchesUnmatched]. rewrite Hm. reflexivity.
      * intro keys. unfold getOne.
        induction keys as [| k keys IH]; [reflexivity |].
        cbn [forEach List.filter]. rewrite IH.
        destruct (strings.Contains (Key k) "/" && negb recursive);
          [reflexivity |].
        cbn [negb List.filter].
        destruct (MatchString re (Key k)); reflexivity.
  - (* the pattern is rejected *)
    cbn [bind call]. split; [| split].
    + reflexivity.
    + intros err Herr. injection Herr as <-. split; reflexivity.
    + intros re Hre. discriminate Hre.
Qed.

(** the retrieval of one key fetches that key and no other, and reports it
    when it returns [nil] *)
Lemma retrieveFile_fetches {W : Type} (h : Handler W) (w : W)
  (bucket outdir : string) (flatten : bool) (k : Object) :
  flat_map fetched (calls h (retrieveFile bucket outdir flatten k) w)
  = [Key k]
  /\ (outcome h (retrieveFile bucket outdir flatten k) w = Returned None ->
      flat_map retrieved (calls h (retrieveFile bucket outdir flatten k) w)
      = [Key k]).
Proof.
  unfold retrieveFile, getFileBlob. cbn [bind call].
  rewrite outcome_Vis, calls_Vis.
  destruct (fst (h (S3GetObject bucket (Key k)) w)) as [content | e];
    cbn [bind call]; [| split; [reflexivity | discriminate]].
  rewrite outcome_Vis, calls_Vis.
  match goal with
  | |- context [match ?r with Some _ => _ | None => _ end] => destruct r
  end; cbn [bind call]; [split; [reflexivity | discriminate] |].
  rewrite outcome_Vis, calls_Vis.
  match goal with
  | |- context [match ?r with Ok _ => _ | Err _ => _ end] =>
      destruct r as [file | e]
  end; cbn [bind call]; [| split; [reflexivity | discriminate]].
  rewrite outcome_Vis, calls_Vis.
  match goal with
  | |- context [match ?r with Some _ => _ | None => _ end] => destruct r
  end; cbn [bind call]; [split; [reflexivity | discriminate] |].
  rewrite outcome_Vis, calls_Vis. split; [reflexivity |].
  intros _. reflexivity.
Qed.

Lemma retrieve_loop {W : Type} (h : Handler W) (bucket outdir : string)
  (flatten : bool) (l : list Object) :
  forall w : W,
    (exists rest : list string,
        map Key l
        = (flat_map fetched
             (calls h (forEach l (retrieveFile bucket outdir flatten)) w)
           ++ rest)%list)
    /\
    (outcome h (forEach l (retrieveFile bucket outdir flatten)) w
     = Returned None ->
     flat_map fetched
       (calls h (forEach l (retrieveFile bucket outdir flatten)) w)
     = map Key l
     /\ flat_map retrieved
          (calls h (forEach l (retrieveFile bucket outdir flatten)) w)
        = map Key l).
Proof.
  induction l as [| k l IH]; intro w.
  - split; [exists []; reflexivity | intros _; split; reflexivity].
  - cbn [forEach map]. unfold outcome, calls. rewrite run_bind.
    destruct (retrieveFile_fetches h w bucket outdir flatten k) as [Hf Hr].
    unfold outcome, calls in Hf, Hr.
    destruct (run h (retrieveFile bucket outdir flatten k) w)
      as [[[r |] w1] t1]; cbn [fst snd] in Hf, Hr.
    + destruct r as [e |].
      * cbn [run fst snd]. rewrite app_nil_r, Hf. split.
        -- exists (map Key l). reflexivity.
        -- discriminate.
      * destruct (IH w1) as [[rest Hrest] Hnone].
        unfold outcome, calls in Hrest, Hnone.
        destruct (run h (forEach l (retrieveFile bucket outdir flatten)) w1)
          as [[o2 w2] t2]; cbn [fst snd] in *.
        rewrite !flat_map_app, Hf. split.
        -- exists rest. cbn [app]. f_equal. exact Hrest.
        -- intro Ho. destruct (Hnone Ho) as [H1 H2].
           rewrite H1, H2, (Hr eq_refl). split; reflexivity.
    + cbn [fst snd]. rewrite Hf.
      split; [exists (map Key l); reflexivity | discriminate].
Qed.

Lemma getOne_loop (bucket outdir : string) (flatten recursive : bool)
  (re : Regexp) (keys : list Object) :
  forEach keys (getOne bucket outdir flatten recursive re)
  = forEach
      (List.filter (fun k => MatchString re (Key k))
         (List.filter
            (fun k => negb (strings.Contains (Key k) "/" && negb recursive))
            keys))
      (retrieveFile bucket outdir flatten).
Proof.
  unfold getOne.
  induction keys as [| k keys IH]; [reflexivity |].
  cbn [forEach List.filter]. rewrite IH.
  destruct (strings.Contains (Key k) "/" && negb recursive);
    [reflexivity |].
  cbn [negb List.filter].
  destruct (MatchString re (Key k)); reflexivity.
Qed.

(** the download of one prefix *)
Lemma getFiles_fetches_kept {W : Type} (h : Handler W) (w : W)
  (bucket outdir : string) (flatten recursive : bool) (filter : string)
  (args : list string) (re : Regexp) (p : string) (contents : list Object) :
  fst (h (RegexpCompile filter) w) = Ok re ->
  getPaths args = [p] ->
  fst (h (OsMkdirAll outdir perm0755) (snd (h (RegexpCompile filter) w)))
  = None ->
  fst (h (S3ListObjects bucket
            (if strings.HasPrefix p "/" then strings.TrimPrefix p "/" else p))
         (snd (h (OsMkdirAll outdir perm0755)
                 (snd (h (RegexpCompile filter) w))))) = Ok contents ->
  let kept :=
    map Key
      (List.filter (fun k => MatchString re (Key k))
         (List.filter
            (fun k => negb (strings.Contains (Key k) "/" && negb recursive))
            (List.filter (fun k => negb (strings.HasSuffix (Key k) "/"))
                         contents))) in
  (exists rest : list string,
      kept
      = (flat_map fetched
           (calls h (getFiles bucket outdir flatten recursive filter args) w)
         ++ rest)%list)
  /\
  (outcome h (getFiles bucket outdir flatten recursive filter args) w
   = Returned None ->
   flat_map fetched
     (calls h (getFiles bucket outdir flatten recursive filter args) w)
   = kept
   /\ flat_map retrieved
        (calls h (getFiles bucket outdir flatten recursive filter args) w)
      = kept).
Proof.
  intros Hre Hpaths Hmk Hls kept.
  unfold getFiles. rewrite Hpaths. cbn [bind call forEach].
  rewrite outcome_Vis, calls_Vis, Hre. cbn [bind call].
  rewrite outcome_Vis, calls_Vis, Hmk. unfold listBucketKeys.
  cbn [bind call]. rewrite outcome_Vis, calls_Vis, Hls. cbn [bind].
  rewrite getOne_loop. fold isDirectory.
  set (l := List.filter (fun k => MatchString re (Key k))
              (List.filter
                 (fun k => negb (strings.Contains (Key k) "/"
                                 && negb recursive))
                 (List.filter (fun x => negb (isDirectory x)) contents))).
  change kept with (map Key l).
  destruct (retrieve_loop h bucket outdir flatten l
              (snd (h (S3ListObjects bucket
                         (if strings.HasPrefix p "/"
                          then strings.TrimPrefix p "/" else p))
                      (snd (h (OsMkdirAll outdir perm0755)
                              (snd (h (RegexpCompile filter) w)))))))
    as [[rest Hrest] Hnone].
  unfold outcome, calls in *. rewrite run_bind.
  destruct (run h (forEach l (retrieveFile bucket outdir flatten)) _)
    as [[[r |] w'] t]; cbn [fst snd] in *.
  - destruct r as [e |]; cbn [run fst snd flat_map fetched retrieved app];
      rewrite app_nil_r.
    + split; [exists rest; exact Hrest | discriminate].
    + split; [exists rest; exact Hrest |]. intros _. exact (Hnone eq_refl).
  - cbn [flat_map fetched app].
    split; [exists rest; exact Hrest | discriminate].
Qed.

(** C7.  In [getFiles] the filter is compiled by exactly one call, the first
    of the run.  When the compiler rejects the pattern, [getFiles] returns
    the invalid-filter error and the compilation is the only call it has
    made: nothing was listed, fetched or written.  When the compiler accepts
    it, no key the pattern does not match is ever fetched, and the loop over
    the listed keys is the retrieval of exactly the keys that pass the
    recursion test and match the pattern, in the listed order.  For the
    download of one prefix whose listing went through, the keys [getFiles]
    fetches are an initial part of the listed keys that are not directory
    markers, pass the recursion test and match the pattern, in that order;
    and when it returns [nil] it has fetched, and reported as retrieved,
    exactly those keys. *)
Theorem getFiles_pattern_filter :
  forall (W : Type) (h : Handler W) (w : W) (bucket outdir : string)
         (flatten recursive : bool) (filter : string) (args : list string),
    List.length
      (List.filter isCompile
         (calls h (getFiles bucket outdir flatten recursive filter args) w))
    = 1
    /\
    (forall err : error,
        fst (h (RegexpCompile filter) w) = Err err ->
        outcome h (getFiles bucket outdir flatten recursive filter args) w
        = Returned (Some (Errorf ("the filter: " ++ filter
                                  ++ " is invalid, message: " ++ Error err)))
        /\ calls h (getFiles bucket outdir flatten recursive filter args) w
           = [RegexpCompile filter])
    /\
    (forall re : Regexp,
        fst (h (RegexpCompile filter) w) = Ok re ->
        Forall (fun c => fetchesUnmatched re c = false)
          (calls h (getFiles bucket outdir flatten recursive filter args) w)
        /\
        forall keys : list Object,
          forEach keys (getOne bucket outdir flatten recursive re)
          = forEach
              (List.filter (fun k => MatchString re (Key k))
                 (List.filter
                    (fun k => negb (strings.Contains (Key k) "/"
                                    && negb recursive)) keys))
              (retrieveFile bucket outdir flatten))
    /\
    (forall (re : Regexp) (p : string) (contents : list Object),
        fst (h (RegexpCompile filter) w) = Ok re ->
        getPaths args = [p] ->
        fst (h (OsMkdirAll outdir perm0755)
               (snd (h (RegexpCompile filter) w))) = None ->
        fst (h (S3ListObjects bucket
                  (if strings.HasPrefix p "/"
                   then strings.TrimPrefix p "/" else p))
               (snd (h (OsMkdirAll outdir perm0755)
                       (snd (h (RegexpCompile filter) w))))) = Ok contents ->
        let kept :=
          map Key
            (List.filter (fun k => MatchString re (Key k))
               (List.filter
                  (fun k => negb (strings.Contains (Key k) "/"
                                  && negb recursive))
                  (List.filter
                     (fun k => negb (strings.HasSuffix (Key k) "/"))
                     contents))) in
        (exists rest : list string,
            kept
            = (flat_map fetched
                 (calls h (getFiles bucket outdir flatten recursive filter
                                    args) w) ++ rest)%list)
        /\
        (outcome h (getFiles bucket outdir flatten recursive filter args) w
         = Returned None ->
         flat_map fetched
           (calls h (getFiles bucket outdir flatten recursive filter args) w)
         = kept
         /\ flat_map retrieved
              (calls h (getFiles bucket outdir flatten recursive filter args)
                     w)
            = kept)).
Proof.
  intros W h w bucket outdir flatten recursive filter args.
  destruct (getFiles_compiles_once W h w bucket outdir flatten recursive
              filter args) as [Hone [Hbad Hgood]].
  split; [exact Hone | split; [exact Hbad | split; [exact Hgood |]]].
  intros re p contents Hre Hpaths Hmk Hls.
  exact (getFiles_fetches_kept h w bucket outdir flatten recursive filter
           args re p contents Hre Hpaths Hmk Hls).
Qed.


Lemma getFiles_pattern_filter_witness :
  (outcome Mem.handle (getFiles "b" "out" false true "(" []) Scenario.nested
   = Returned (Some (Errorf
       "the filter: ( is invalid, message: error parsing regexp"))
   /\ calls Mem.handle (getFiles "b" "out" false true "(" []) Scenario.nested
      = [RegexpCompile "("])
  /\
  Forall (fun c => fetchesUnmatched
                     {| MatchString := fun s => strings.HasSuffix s ".txt" |}
                     c = false)
    (calls Mem.handle (getFiles "b" "out" false true "\.txt$" [])
           Scenario.mixed)
  /\
  (flat_map fetched
     (calls Mem.handle (getFiles "b" "out" false true "\.txt$" [])
            Scenario.mixed)
   = ["a.txt"]
   /\ flat_map retrieved
        (calls Mem.handle (getFiles "b" "out" false true "\.txt$" [])
               Scenario.mixed)
      = ["a.txt"]).
Proof.
  pose proof (getFiles_pattern_filter Mem.World Mem.handle Scenario.nested
                "b" "out" false true "(" []) as [_ [Hbad _]].
  pose proof (getFiles_pattern_filter Mem.World Mem.handle Scenario.mixed
                "b" "out" false true "\.txt$" []) as [_ [_ [Hgood Hkept]]].
  split; [| split].
  - exact (Hbad (External "error parsing regexp") eq_refl).
  - exact (proj1 (Hgood
                    {| MatchString := fun s => strings.HasSuffix s ".txt" |}
                    eq_refl)).
  - exact (proj2 (Hkept
                    {| MatchString := fun s => strings.HasSuffix s ".txt" |}
                    ""
                    [Mem.toObject ("a.txt", "text");
                     Mem.toObject ("a.bin", "bits")]
                    eq_refl eq_refl eq_refl eq_refl) eq_refl).
Defined.

(** ** Inline edit: [editFile] and [inlineEditFile] *)

Lemma final_Vis {W A : Type} (h : Handler W) (c : Call)
  (k : Resp c -> Prog A) (w : W) :
  final h (Vis c k) w = final h (k (fst (h c w))) (snd (h c w)).
Proof.
  unfold final. rewrite run_call.
  destruct (run h (k (fst (h c w))) (snd (h c w))) as [[o w''] t].
  reflexivity.
Qed.

(** what a handler leaves alone on every call outside [P], a program that
    never makes a call in [P] leaves alone *)
Lemma never_final {W A X : Type} (P : Call -> bool) (h : Handler W)
  (f : W -> X) (p : Prog A) (w : W) :
  (forall c w0, P c = false -> f (snd (h c w0)) = f w0) ->
  never P p -> f (final h p w) = f w.
Proof.
  intro Hh. revert w. induction p as [a | | c k IH]; intros w Hp.
  - reflexivity.
  - reflexivity.
  - destruct Hp as [Hc Hk]. rewrite final_Vis, IH by apply Hk.
    apply Hh, Hc.
Qed.

Lemma handle_keeps_buckets (c : Call) (w : Mem.World) :
  changesBucket c = false ->
  Mem.buckets (snd (Mem.handle c w)) = Mem.buckets w.
Proof.
  destruct c; cbn [changesBucket]; intro H; try discriminate H;
    cbn [Mem.handle];
    repeat match goal with
           | |- context [match ?x with _ => _ end] => destruct x
           end; reflexivity.
Qed.

Lemma never_inlineEditFile (filename content editor : string) :
  never readsBackOrUploads (inlineEditFile filename content editor).
Proof.
  unfold inlineEditFile. repeat never_step; auto.
Qed.

Lemma never_editFile (bucket EDITOR : string) (args : list string) :
  never readsBackOrUploads (editFile bucket EDITOR args).
Proof.
  unfold editFile. apply never_forEach. intro x.
  unfold getFileBlob. cbn [bind call never]. split; [reflexivity |].
  intros [content | e]; cbn [bind]; [| exact I].
  apply never_bind; [apply never_inlineEditFile |].
  intros [e |]; exact I.
Qed.

(** C9.  Once [inlineEditFile] has its temporary file, the last call of
    every run is the removal of that file: either the write failed and the
    run is create, write, remove, or the run is create, write, close, run
    the editor, remove, whatever the write and the editor answered.
    [editFile] itself never opens a local file to read it back and never
    makes a call that changes a bucket, so in the reference environment the
    buckets and their objects are the same after the command as before. *)
Theorem editFile_removes_temp_and_keeps_bucket :
  forall (W : Type) (h : Handler W) (w : W) (bucket EDITOR : string)
         (args : list string),
    (forall (filename content editor : string) (tmpfile : File),
        fst (h (TempFile "/tmp" (filename ++ ".XXXXXXXX")) w) = Ok tmpfile ->
        calls h (inlineEditFile filename content editor) w
        = [TempFile "/tmp" (filename ++ ".XXXXXXXX");
           FileWrite tmpfile content;
           OsRemove (FileName tmpfile)]
        \/
        calls h (inlineEditFile filename content editor) w
        = [TempFile "/tmp" (filename ++ ".XXXXXXXX");
           FileWrite tmpfile content;
           FileClose tmpfile;
           CmdRun editor [FileName tmpfile];
           OsRemove (FileName tmpfile)])
    /\
    Forall (fun c => readsBackOrUploads c = false)
           (calls h (editFile bucket EDITOR args) w)
    /\
    (forall m : Mem.World,
        Mem.buckets (final Mem.handle (editFile bucket EDITOR args) m)
        = Mem.buckets m).
Proof.
  intros W h w bucket EDITOR args. split; [| split].
  - intros filename content editor tmpfile Htmp.
    unfold inlineEditFile. cbn [bind call].
    rewrite calls_Vis, Htmp. cbn [bind call].
    rewrite calls_Vis.
    destruct (fst (h (FileWrite tmpfile content)
                     (snd (h (TempFile "/tmp" (filename ++ ".XXXXXXXX")) w))))
      as [e |].
    + left. cbn [bind call]. rewrite calls_Vis. reflexivity.
    + right. cbn [bind call]. rewrite !calls_Vis.
      match goal with
      | |- context [match ?r with Some _ => _ | None => _ end] => destruct r
      end; cbn [bind call]; rewrite calls_Vis; reflexivity.
  - apply never_calls, never_editFile.
  - intro m. apply (never_final readsBackOrUploads).
    + intros c w0 Hc. apply handle_keeps_buckets.
      destruct c; try reflexivity; discriminate Hc.
    + apply never_editFile.
Qed.

Lemma editFile_removes_temp_and_keeps_bucket_witness :
  calls Mem.handle (inlineEditFile "secret.txt" "hunter2" "vim")
        Scenario.vault
  = [TempFile "/tmp" "secret.txt.XXXXXXXX";
     FileWrite {| FileName := "/tmp/secret.txt.XXXXXXXX0" |} "hunter2";
     OsRemove "/tmp/secret.txt.XXXXXXXX0"]
  \/
  calls Mem.handle (inlineEditFile "secret.txt" "hunter2" "vim")
        Scenario.vault
  = [TempFile "/tmp" "secret.txt.XXXXXXXX";
     FileWrite {| FileName := "/tmp/secret.txt.XXXXXXXX0" |} "hunter2";
     FileClose {| FileName := "/tmp/secret.txt.XXXXXXXX0" |};
     CmdRun "vim" ["/tmp/secret.txt.XXXXXXXX0"];
     OsRemove "/tmp/secret.txt.XXXXXXXX0"].
Proof.
  apply (proj1 (editFile_removes_temp_and_keeps_bucket Mem.World Mem.handle
                  Scenario.vault "b" "" ["secret.txt"])
           "secret.txt" "hunter2" "vim"
           {| FileName := "/tmp/secret.txt.XXXXXXXX0" |}).
  reflexivity.
Defined.

Example editFile_vault :
  calls Mem.handle (editFile "b" "" ["secret.txt"]) Scenario.vault
  = [S3GetObject "b" "secret.txt";
     TempFile "/tmp" "secret.txt.XXXXXXXX";
     FileWrite {| FileName := "/tmp/secret.txt.XXXXXXXX0" |} "hunter2";
     FileClose {| FileName := "/tmp/secret.txt.XXXXXXXX0" |};
     CmdRun "vim" ["/tmp/secret.txt.XXXXXXXX0"];
     OsRemove "/tmp/secret.txt.XXXXXXXX0"]
  /\ Mem.files (final Mem.handle (editFile "b" "" ["secret.txt"])
                      Scenario.vault)
     = [("notes.txt", "n")].
Proof. split; reflexivity. Qed.

(** ** Keys: [getKmsAlias], [deleteKey], [createKey] *)

Lemma outcome_Ret {W A : Type} (h : Handler W) (a : A) (w : W) :
  outcome h (Ret a) w = Returned a.
Proof. reflexivity. Qed.

Lemma outcome_Panic {W A : Type} (h : Handler W) (w : W) :
  outcome h (@Panic A) w = Panicked.
Proof. reflexivity. Qed.

(** C10.  [getKmsAlias] returns the first alias of the provider's list that
    passes its name test, whether or not that alias has a target key id.
    [deleteKey] then dereferences the target key id unchecked: when it is
    absent and the alias deletion went through, the run panics, with or
    without [schedule-deletion]; when it is present the run does not panic;
    and a run of [deleteKey] that returns [nil] had a first matching alias
    with a target key id. *)
Theorem deleteKey_needs_target_key_id :
  forall (W : Type) (h : Handler W) (w : W) (name : string) (deletion : bool),
    (forall (aliases : list AliasListEntry) (alias : AliasListEntry),
        fst (h KmsListAliases w) = Ok aliases ->
        find (aliasMatches name) aliases = Some alias ->
        outcome h (getKmsAlias name) w = Returned (Ok alias)
        /\
        (TargetKeyId alias = None ->
         fst (h (KmsDeleteAlias (AliasName alias)) (snd (h KmsListAliases w)))
         = None ->
         outcome h (deleteKey name deletion) w = Panicked)
        /\
        (forall keyId : string,
            TargetKeyId alias = Some keyId ->
            outcome h (deleteKey name deletion) w <> Panicked))
    /\
    (outcome h (deleteKey name deletion) w = Returned None ->
     exists (aliases : list AliasListEntry) (alias : AliasListEntry)
            (keyId : string),
       fst (h KmsListAliases w) = Ok aliases /\
       find (aliasMatches name) aliases = Some alias /\
       TargetKeyId alias = Some keyId).
Proof.
  intros W h w name deletion. split.
  - intros aliases alias Hls Hfind.
    unfold deleteKey, getKmsAlias, kmsKeys. cbn [bind call].
    rewrite !outcome_Vis, Hls. cbn [bind]. rewrite Hfind. cbn [bind call].
    split; [reflexivity | split].
    + intros Hnone Hdel. rewrite outcome_Vis, Hdel, Hnone.
      destruct deletion; reflexivity.
    + intros keyId Hsome. rewrite outcome_Vis, Hsome.
      destruct (fst (h (KmsDeleteAlias (AliasName alias))
                       (snd (h KmsListAliases w)))) as [e |];
        [cbn [bind]; rewrite outcome_Ret; discriminate |].
      destruct deletion; cbn [bind call deref].
      * rewrite outcome_Vis.
        match goal with
        | |- context [match ?r with Some _ => _ | None => _ end] =>
            destruct r
        end; cbn [bind call]; [rewrite outcome_Ret; discriminate |].
        rewrite outcome_Vis, outcome_Ret. discriminate.
      * rewrite outcome_Vis, outcome_Ret. discriminate.
  - unfold deleteKey, getKmsAlias, kmsKeys. cbn [bind call].
    rewrite outcome_Vis.
    destruct (fst (h KmsListAliases w)) as [aliases | e] eqn:Hls;
      cbn [bind]; [| rewrite outcome_Ret; discriminate].
    destruct (find (aliasMatches name) aliases) as [alias |] eqn:Hfind;
      cbn [bind call]; [| rewrite outcome_Ret; discriminate].
    rewrite outcome_Vis.
    destruct (fst (h (KmsDeleteAlias (AliasName alias))
                     (snd (h KmsListAliases w)))) as [e |];
      [cbn [bind]; rewrite outcome_Ret; discriminate |].
    destruct (TargetKeyId alias) as [keyId |] eqn:Hkey.
    + intros _. exists aliases, alias, keyId. auto.
    + destruct deletion; cbn [bind call deref];
        rewrite outcome_Panic; discriminate.
Qed.

Lemma deleteKey_needs_target_key_id_witness :
  outcome Mem.handle (getKmsAlias "old") Scenario.dangling
  = Returned (Ok {| AliasName := "alias/old"; TargetKeyId := None |})
  /\ outcome Mem.handle (deleteKey "old" true) Scenario.dangling = Panicked
  /\ outcome Mem.handle (deleteKey "old" false) Scenario.dangling = Panicked
  /\ outcome Mem.handle (deleteKey "prod" true) Scenario.prod <> Panicked.
Proof.
  pose proof (proj1 (deleteKey_needs_target_key_id Mem.World Mem.handle
                       Scenario.dangling "old" true)
                [{| AliasName := "alias/old"; TargetKeyId := None |}]
                {| AliasName := "alias/old"; TargetKeyId := None |}
                eq_refl eq_refl) as [Hget [Hpanic _]].
  pose proof (proj1 (deleteKey_needs_target_key_id Mem.World Mem.handle
                       Scenario.dangling "old" false)
                [{| AliasName := "alias/old"; TargetKeyId := None |}]
                {| AliasName := "alias/old"; TargetKeyId := None |}
                eq_refl eq_refl) as [_ [Hpanic' _]].
  pose proof (proj1 (deleteKey_needs_target_key_id Mem.World Mem.handle
                       Scenario.prod "prod" true)
                [{| AliasName := "alias/prod"; TargetKeyId := Some "key-1" |}]
                {| AliasName := "alias/prod"; TargetKeyId := Some "key-1" |}
                eq_refl eq_refl) as [_ [_ Hok]].
  exact (conj Hget
           (conj (Hpanic eq_refl eq_refl)
              (conj (Hpanic' eq_refl eq_refl) (Hok "key-1" eq_refl)))).
Defined.

Example deleteKey_dangling_alias_gone :
  Mem.aliases (final Mem.handle (deleteKey "old" false) Scenario.dangling)
  = [].
Proof. reflexivity. Qed.

Example deleteKey_prod :
  run Mem.handle (deleteKey "prod" true) Scenario.prod
  = (Returned None,
     Mem.mkWorld [] [("key-1", 7%N)] [("b", [])] Mem.onlyMatchAll [] []
       [LogKeyDeleted "alias/prod" "key-1" true],
     [KmsListAliases; KmsDeleteAlias "alias/prod";
      KmsScheduleKeyDeletion "key-1" 7;
      Output (LogKeyDeleted "alias/prod" "key-1" true)]).
Proof. reflexivity. Qed.

(** ** Creating what is already there *)

Lemma TrimLeft_length (s cutset : string) :
  String.length (strings.TrimLeft s cutset) <= String.length s.
Proof.
  induction s as [| c s IH]; cbn [strings.TrimLeft]; [lia |].
  destruct (strings.inCutset c cutset); cbn [String.length]; lia.
Qed.

Lemma TrimLeft_fixed (s cutset : string) :
  strings.TrimLeft s cutset = s <->
  match s with
  | EmptyString => True
  | String c _ => strings.inCutset c cutset = false
  end.
Proof.
  destruct s as [| c s]; cbn [strings.TrimLeft]; [tauto |].
  destruct (strings.inCutset c cutset) eqn:Hc.
  - split; [| discriminate]. intro Heq.
    pose proof (TrimLeft_length s cutset) as Hlen.
    rewrite Heq in Hlen. cbn [String.length] in Hlen. lia.
  - tauto.
Qed.

Lemma find_matching (name : string) (aliases : list AliasListEntry) :
  (exists alias, In alias aliases /\ aliasMatches name alias = true) ->
  exists first, find (aliasMatches name) aliases = Some first.
Proof.
  intros [alias [Hin Hm]].
  destruct (find (aliasMatches name) aliases) as [first |] eqn:Hfind.
  - exists first. reflexivity.
  - rewrite (find_none _ _ Hfind alias Hin) in Hm. discriminate Hm.
Qed.

(** C8, as the code has it.  When the provider lists an alias named
    ["alias/"] followed by the name, [createKey] hands the formatter the
    already-exists record and returns [nil]; the alias listing and that
    record are its only calls, so no key and no alias is created.  This is
    stated for the names that are empty or start with a byte other than
    [a], [l], [i], [s] and [/]; for the others, whether the alias is
    recognised depends on the name test of [getKmsAlias] (see C3) and is
    left out.  When the bucket list names the bucket, [createBucket] returns
    the already-exists error and the bucket listing is its only call. *)
Theorem create_existing_key_or_bucket :
  forall (W : Type) (h : Handler W) (w : W) (name description : string),
    (forall aliases : list AliasListEntry,
        fst (h KmsListAliases w) = Ok aliases ->
        (exists alias,
            In alias aliases /\ AliasName alias = "alias/" ++ name) ->
        match name with
        | EmptyString => True
        | String c _ => strings.inCutset c "alias/" = false
        end ->
        outcome h (createKey name description) w = Returned None
        /\ calls h (createKey name description) w
           = [KmsListAliases; Output (LogKeyExists name)])
    /\
    (forall list : list Bucket,
        fst (h S3ListBuckets w) = Ok list ->
        In name (map Name list) ->
        outcome h (createBucket name) w
        = Returned (Some (Errorf "the bucket already exists"))
        /\ calls h (createBucket name) w = [S3ListBuckets]).
Proof.
  intros W h w name description. split.
  - intros aliases Hls [alias [Hin Hname]] Hplain.
    assert (Hex : exists x, In x aliases /\ aliasMatches name x = true).
    { exists alias. split; [exact Hin |].
      unfold aliasMatches. rewrite Hname.
      change (strings.TrimLeft ("alias/" ++ name) "alias/")
        with (strings.TrimLeft name "alias/").
      apply String.eqb_eq, TrimLeft_fixed. exact Hplain. }
    destruct (find_matching name aliases Hex) as [first Hfind].
    unfold createKey, hasKmsAlias, getKmsAlias, kmsKeys. cbn [bind call].
    rewrite outcome_Vis, calls_Vis, Hls. cbn [bind]. rewrite Hfind.
    cbn [bind call]. rewrite outcome_Vis, calls_Vis.
    split; reflexivity.
  - intros list Hls Hin.
    unfold createBucket, hasBucket, listS3Buckets. cbn [bind call].
    rewrite outcome_Vis, calls_Vis, Hls. cbn [bind].
    apply existsb_Name in Hin. rewrite Hin.
    split; reflexivity.
Qed.

Lemma create_existing_key_or_bucket_witness :
  (outcome Mem.handle (createKey "prod" "production") Scenario.prod
   = Returned None
   /\ calls Mem.handle (createKey "prod" "production") Scenario.prod
      = [KmsListAliases; Output (LogKeyExists "prod")])
  /\
  (outcome Mem.handle (createBucket "b") Scenario.prod
   = Returned (Some (Errorf "the bucket already exists"))
   /\ calls Mem.handle (createBucket "b") Scenario.prod = [S3ListBuckets]).
Proof.
  split.
  - apply (proj1 (create_existing_key_or_bucket Mem.World Mem.handle
                    Scenario.prod "prod" "production")
             [{| AliasName := "alias/prod"; TargetKeyId := Some "key-1" |}]
             eq_refl).
    + exists {| AliasName := "alias/prod"; TargetKeyId := Some "key-1" |}.
      split; [left; reflexivity | reflexivity].
    + reflexivity.
  - apply (proj2 (create_existing_key_or_bucket Mem.World Mem.handle
                    Scenario.prod "b" "")
             [{| Name := "b" |}] eq_refl).
    left. reflexivity.
Defined.

(** C8 as stated fails for keys: with an alias named prod in the account,
    [createKey] for prod returns [nil], not an error. *)
Lemma createKey_existing_alias_is_not_an_error :
  Mem.hasAlias "alias/prod" Scenario.prod = true
  /\ outcome Mem.handle (hasKmsAlias "prod") Scenario.prod
     = Returned (Ok true)
  /\ outcome Mem.handle (createKey "prod" "production") Scenario.prod
     = Returned None
  /\ ~ (exists e : error,
          outcome Mem.handle (createKey "prod" "production") Scenario.prod
          = Returned (Some e)).
Proof.
  split; [reflexivity | split; [reflexivity | split; [reflexivity |]]].
  intros [e He]. discriminate He.
Qed.

(** ** Alias resolution *)

(** what [getKmsAlias] does with a list of aliases: the first one that
    passes [aliasMatches], the not-found error when none does *)
Lemma getKmsAlias_first_match {W : Type} (h : Handler W) (w : W)
  (name : string) (aliases : list AliasListEntry) :
  fst (h KmsListAliases w) = Ok aliases ->
  (forall alias,
      find (aliasMatches name) aliases = Some alias ->
      outcome h (getKmsAlias name) w = Returned (Ok alias))
  /\
  (outcome h (getKmsAlias name) w = Returned (Err errKmsNotFound) <->
   Forall (fun x => aliasMatches name x = false) aliases).
Proof.
  intro Hls. unfold getKmsAlias, kmsKeys. cbn [bind call].
  rewrite outcome_Vis, Hls. cbn [bind]. split.
  - intros alias Hfind. rewrite Hfind. reflexivity.
  - destruct (find (aliasMatches name) aliases) as [alias |] eqn:Hfind.
    + split; [intro H; discriminate H |].
      intro Hall. apply find_some in Hfind. destruct Hfind as [Hin Hm].
      rewrite Forall_forall in Hall. rewrite (Hall alias Hin) in Hm.
      discriminate Hm.
    + split; [| reflexivity].
      intros _. apply Forall_forall. intros x Hin.
      exact (find_none _ _ Hfind x Hin).
Qed.

(** the name test agrees with stripping the prefix for the names that do
    not start with a byte of the cutset *)
Lemma TrimLeft_alias_of_plain_name (name : string) :
  match name with
  | EmptyString => True
  | String c _ => strings.inCutset c "alias/" = false
  end ->
  strings.TrimLeft ("alias/" ++ name) "alias/" = name
  /\ strings.TrimPrefix ("alias/" ++ name) "alias/" = name.
Proof.
  intro Hc. split; [| reflexivity].
  destruct name as [| c name]; [reflexivity |].
  cbn. cbn in Hc. rewrite Hc. reflexivity.
Qed.

(** [listKeys] does skip the aliases without a target key id: it reports
    the others, in order, and never panics *)
Lemma listKeys_skips_aliases_without_target (keys : list AliasListEntry) :
  forEach keys (fun k =>
    match TargetKeyId k with
    | None => Ret None
    | Some id => call (Output (LogKey id (AliasName k))) ;;; Ret None
    end)
  = forEach
      (filter (fun k => match TargetKeyId k with
                        | None => false
                        | Some _ => true
                        end) keys)
      (fun k =>
         id <- deref (TargetKeyId k) ;;
         call (Output (LogKey id (AliasName k))) ;;; Ret None).
Proof.
  induction keys as [| k keys IH]; [reflexivity |].
  cbn [forEach filter]. rewrite IH.
  destruct (TargetKeyId k) as [id |] eqn:Hk; [| reflexivity].
  cbn [forEach]. rewrite Hk. reflexivity.
Qed.

Example listKeys_dangling :
  run Mem.handle listKeys Scenario.dangling
  = (Returned None, Scenario.dangling, [KmsListAliases]).
Proof. reflexivity. Qed.

(** C3, at the failing input.  The name test strips every leading byte that
    occurs in ["alias/"], not the prefix ["alias/"]: the alias of the key
    named sales is taken for es.  With aliases for sales and es in the
    account, resolving sales fails with the not-found error, and resolving
    es returns the alias of sales. *)
Theorem getKmsAlias_strips_cutset_not_prefix :
  strings.TrimLeft "alias/sales" "alias/" = "es"
  /\ strings.TrimPrefix "alias/sales" "alias/" = "sales"
  /\ outcome Mem.handle (getKmsAlias "sales") Scenario.sales
     = Returned (Err errKmsNotFound)
  /\ outcome Mem.handle (getKmsAlias "es") Scenario.sales
     = Returned (Ok {| AliasName := "alias/sales";
                       TargetKeyId := Some "key-1" |}).
Proof. repeat split. Qed.

Example getKmsAlias_prod :
  outcome Mem.handle (getKmsAlias "prod") Scenario.prod
  = Returned (Ok {| AliasName := "alias/prod"; TargetKeyId := Some "key-1" |}).
Proof. reflexivity. Qed.

(** ** Bucket deletion *)

(** what holds of [deleteBucket] for the files [listBucketKeys] reports:
    when the bucket is listed and its listing holds an entry that is not a
    directory marker, then without [force] the not-empty error is returned
    after the two listings and nothing else *)
Lemma deleteBucket_refuses_without_force {W : Type} (h : Handler W) (w : W)
  (name : string) (bs : list Bucket) (contents : list Object) (x : Object) :
  fst (h S3ListBuckets w) = Ok bs ->
  In name (map Name bs) ->
  fst (h (S3ListObjects name "") (snd (h S3ListBuckets w))) = Ok contents ->
  In x contents -> isDirectory x = false ->
  outcome h (deleteBucket name false) w
  = Returned (Some (Errorf
      "the bucket is not empty, either force (--force) deletion or empty the bucket"))
  /\ calls h (deleteBucket name false) w
     = [S3ListBuckets; S3ListObjects name ""].
Proof.
  intros Hls Hin Hobjs Hx Hfile.
  unfold deleteBucket, hasBucket, listS3Buckets, sizeOfBucket, listBucketKeys.
  cbn [bind call]. rewrite outcome_Vis, calls_Vis, Hls. cbn [bind].
  apply existsb_Name in Hin. rewrite Hin. cbn [bind].
  rewrite outcome_Vis, calls_Vis, Hobjs. cbn [bind].
  assert (Hpos : (0 <? List.length
                        (filter (fun x => negb (isDirectory x)) contents))%nat
                 = true).
  { apply Nat.ltb_lt.
    assert (Hin' : In x (filter (fun x => negb (isDirectory x)) contents)).
    { apply filter_In. split; [exact Hx |]. rewrite Hfile. reflexivity. }
    destruct (filter (fun x => negb (isDirectory x)) contents);
      [destruct Hin' | simpl; lia]. }
  rewrite Hpos. split; reflexivity.
Qed.

(** an empty listing: the bucket is deleted without any object deletion *)
Lemma deleteBucket_empty {W : Type} (h : Handler W) (w : W)
  (name : string) (force : bool) (bs : list Bucket) :
  fst (h S3ListBuckets w) = Ok bs ->
  In name (map Name bs) ->
  fst (h (S3ListObjects name "") (snd (h S3ListBuckets w))) = Ok [] ->
  exists rest,
    calls h (deleteBucket name force) w
    = S3ListBuckets :: S3ListObjects name "" :: S3DeleteBucket name :: rest
    /\ Forall (fun c => changesBucket c = false) rest.
Proof.
  intros Hls Hin Hobjs.
  unfold deleteBucket, hasBucket, listS3Buckets, sizeOfBucket, listBucketKeys.
  cbn [bind call]. rewrite calls_Vis, Hls. cbn [bind].
  apply existsb_Name in Hin. rewrite Hin. cbn [bind].
  rewrite calls_Vis, Hobjs. cbn [bind filter List.length Nat.ltb Nat.leb andb].
  rewrite calls_Vis.
  match goal with
  | |- context [match ?r with Some _ => _ | None => _ end] => destruct r
  end; cbn [bind call].
  - exists []. split; [reflexivity | constructor].
  - rewrite calls_Vis. exists [Output (LogBucketDeleted name)].
    split; [reflexivity | repeat constructor].
Qed.

(** C5, at the failing input.  The bucket holds a directory marker and a
    file.  With [force], [deleteBucket] deletes the file only, since both
    its count and its deletion loop go through [listBucketKeys]; the marker
    stays, the deletion of the bucket is refused by the provider, and the
    bucket is still there, holding the marker.  A bucket that holds only
    the marker counts as empty: without [force] no not-empty error is
    raised by the command, which goes on to ask for the bucket's
    deletion. *)
Theorem deleteBucket_force_leaves_directory_markers :
  run Mem.handle (deleteBucket "b" true) Scenario.marked
  = (Returned (Some (External "BucketNotEmpty")),
     Scenario.markerOnly,
     [S3ListBuckets; S3ListObjects "b" ""; S3ListObjects "b" "";
      S3DeleteObject "b" "dir/a.txt"; S3DeleteBucket "b"])
  /\ outcome Mem.handle (sizeOfBucket "b") Scenario.markerOnly
     = Returned (Ok 0)
  /\ calls Mem.handle (deleteBucket "b" false) Scenario.markerOnly
     = [S3ListBuckets; S3ListObjects "b" ""; S3DeleteBucket "b"].
Proof. repeat split. Qed.

Example deleteBucket_force_files_only :
  run Mem.handle (deleteBucket "b" true) Scenario.nested
  = (Returned None,
     Mem.mkWorld [] [] [] Mem.onlyMatchAll [] [] [LogBucketDeleted "b"],
     [S3ListBuckets; S3ListObjects "b" ""; S3ListObjects "b" "";
      S3DeleteObject "b" "a/1.txt"; S3DeleteObject "b" "a/b/2.txt";
      S3DeleteBucket "b"; Output (LogBucketDeleted "b")]).
Proof. reflexivity. Qed.

(** ** Recursion filtering *)

(** [listFiles]: the loop over the keys of a prefix reports exactly the keys
    whose remainder after the prefix has no separator, or all of them in
    recursive mode *)
Lemma listFiles_keeps_by_remainder (detailed recursive : bool) (p : string)
  (files : list Object) :
  forEach files (fun k =>
    if strings.Contains (strings.TrimPrefix (Key k) p) "/" && negb recursive
    then Ret None
    else reportFile detailed k)
  = forEach
      (filter (fun k => negb (strings.Contains (strings.TrimPrefix (Key k) p)
                                               "/" && negb recursive)) files)
      (reportFile detailed).
Proof.
  rewrite <- forEach_filter.
  induction files as [| k files IH]; [reflexivity |].
  cbn [forEach]. rewrite IH.
  destruct (strings.Contains (strings.TrimPrefix (Key k) p) "/"
            && negb recursive); reflexivity.
Qed.

Lemma HasPrefix_trans (s p q : string) :
  strings.HasPrefix s p = true -> strings.HasPrefix p q = true ->
  strings.HasPrefix s q = true.
Proof.
  revert s p. induction q as [| c q IH]; intros s p Hsp Hpq.
  - destruct s; reflexivity.
  - destruct p as [| b p]; [discriminate Hpq |].
    destruct s as [| a s]; [discriminate Hsp |].
    cbn [strings.HasPrefix] in *.
    apply andb_true_iff in Hsp. destruct Hsp as [Hba Hsp].
    apply andb_true_iff in Hpq. destruct Hpq as [Hcb Hpq].
    apply Ascii.eqb_eq in Hba. apply Ascii.eqb_eq in Hcb. subst.
    rewrite Ascii.eqb_refl. exact (IH s p Hsp Hpq).
Qed.

Lemma Contains_under_prefix (s p sub : string) :
  strings.HasPrefix s p = true -> strings.Contains p sub = true ->
  strings.Contains s sub = true.
Proof.
  revert s. induction p as [| b p IH]; intros s Hsp Hp.
  - cbn [strings.Contains] in Hp. rewrite orb_false_r in Hp.
    destruct sub; [| discriminate Hp].
    destruct s; reflexivity.
  - destruct s as [| a s]; [discriminate Hsp |].
    cbn [strings.Contains] in Hp. apply orb_true_iff in Hp.
    cbn [strings.Contains]. apply orb_true_iff.
    destruct Hp as [Hp | Hp].
    + left. exact (HasPrefix_trans _ _ _ Hsp Hp).
    + right. cbn [strings.HasPrefix] in Hsp.
      apply andb_true_iff in Hsp. destruct Hsp as [_ Hsp].
      exact (IH s Hsp Hp).
Qed.

(** [getFiles] tests the whole key: without [recursive], under a prefix that
    itself holds a separator, no key that starts with the prefix is
    retrieved *)
Lemma getOne_skips_all_under_nested_prefix (bucket outdir p : string)
  (flatten : bool) (re : Regexp) (k : Object) :
  strings.Contains p "/" = true ->
  strings.HasPrefix (Key k) p = true ->
  getOne bucket outdir flatten false re k = Ret None.
Proof.
  intros Hp Hk. unfold getOne.
  rewrite (Contains_under_prefix _ _ _ Hk Hp). reflexivity.
Qed.

(** C1, at the failing input.  Prefix ["a/"], not recursive, keys
    ["a/1.txt"] and ["a/b/2.txt"].  [listFiles] strips the prefix before it
    looks for a separator and reports exactly ["a/1.txt"].  [getFiles] looks
    for the separator in the whole key, so both keys are skipped: after the
    listing it makes no further call, nothing is fetched and no file is
    written. *)
Theorem getFiles_recursion_test_on_whole_key :
  Mem.output
    (final Mem.handle (listFiles "b" false false ["a/"]) Scenario.nested)
  = [LogFile false (Mem.toObject ("a/1.txt", "one"))]
  /\ run Mem.handle (getFiles "b" "out" false false ".*" ["a/"])
         Scenario.nested
     = (Returned None,
        Mem.setDirs Scenario.nested ["out"],
        [RegexpCompile ".*"; OsMkdirAll "out" perm0755;
         S3ListObjects "b" "a/"]).
Proof. split; reflexivity. Qed.

Example getFiles_recursive_nested :
  Mem.files
    (final Mem.handle (getFiles "b" "out" false true ".*" ["a/"])
           Scenario.nested)
  = [("out/a/1.txt", "one"); ("out/a/b/2.txt", "two")].
Proof. reflexivity. Qed.

(** ** Destination paths *)

(** without [flatten] the key is mirrored under the output directory *)
Lemma getFullPath_mirrors_key (outdir key : string) :
  getFullPath outdir false key = outdir ++ "/" ++ key.
Proof.
  unfold getFullPath, getFilename. rewrite andb_false_r. reflexivity.
Qed.

Lemma length_append (s t : string) :
  String.length (s ++ t) = String.length s + String.length t.
Proof. induction s as [| c s IH]; simpl; [reflexivity | rewrite IH; lia]. Qed.

(** with [flatten], a key with a separator goes to the base name under the
    output directory taken twice, which is never the base name directly
    under the output directory *)
Lemma getFullPath_flatten_doubles_outdir (outdir key : string) :
  strings.Contains key "/" = true ->
  getFullPath outdir true key
  = outdir ++ "/" ++ outdir ++ "/" ++ filepath.Base key
  /\ getFullPath outdir true key <> outdir ++ "/" ++ filepath.Base key.
Proof.
  intro Hk. unfold getFullPath, getFilename. rewrite Hk. cbn [andb].
  split; [reflexivity |].
  intro Heq. apply (f_equal String.length) in Heq.
  rewrite !length_append in Heq. simpl in Heq. lia.
Qed.

(** C2, at the failing input.  With [flatten], output directory
    ["./secrets"] and key ["dir/sub/file.txt"], the file name is first set
    to ["./secrets/file.txt"] and then joined to the output directory once
    more: the file is written to ["./secrets/./secrets/file.txt"].  Without
    [flatten] the same key is written to ["./secrets/dir/sub/file.txt"],
    after ["./secrets/dir/sub"] has been made. *)
Theorem getFiles_flatten_path_repeats_outdir :
  getFullPath "./secrets" true "dir/sub/file.txt"
  = "./secrets/./secrets/file.txt"
  /\ calls Mem.handle (getFiles "b" "./secrets" true true ".*" [])
           Scenario.deep
     = [RegexpCompile ".*"; OsMkdirAll "./secrets" perm0755;
        S3ListObjects "b" ""; S3GetObject "b" "dir/sub/file.txt";
        OsMkdirAll "./secrets/secrets" perm0755;
        OsOpenFile "./secrets/./secrets/file.txt" 578 perm0744;
        FileWrite {| FileName := "./secrets/./secrets/file.txt" |} "secret";
        Output (LogGet "dir/sub/file.txt" "./secrets/./secrets/file.txt"
                       "secret")]
  /\ Mem.files (final Mem.handle (getFiles "b" "./secrets" true true ".*" [])
                      Scenario.deep)
     = [("./secrets/./secrets/file.txt", "secret")]
  /\ calls Mem.handle (getFiles "b" "./secrets" false true ".*" [])
           Scenario.deep
     = [RegexpCompile ".*"; OsMkdirAll "./secrets" perm0755;
        S3ListObjects "b" ""; S3GetObject "b" "dir/sub/file.txt";
        OsMkdirAll "./secrets/dir/sub" perm0755;
        OsOpenFile "./secrets/dir/sub/file.txt" 578 perm0744;
        FileWrite {| FileName := "./secrets/dir/sub/file.txt" |} "secret";
        Output (LogGet "dir/sub/file.txt" "./secrets/dir/sub/file.txt"
                       "secret")].
Proof. repeat split. Qed.

(** an existing file at the destination is emptied by the open and then
    holds the fetched content only *)
Example getFiles_overwrites :
  Mem.files
    (final Mem.handle (getFiles "b" "out" false true ".*" [])
       (Mem.setFiles Scenario.deep
          [("out/dir/sub/file.txt", "a much longer previous content")]))
  = [("out/dir/sub/file.txt", "secret")].
Proof. reflexivity. Qed.

(** ** The string and path helpers on examples *)

Example HasPrefix_ex : strings.HasPrefix "/a/b" "/" = true.
Proof. reflexivity. Qed.
Example TrimPrefix_ex : strings.TrimPrefix "a/b/2.txt" "a/" = "b/2.txt".
Proof. reflexivity. Qed.
Example TrimPrefix_no : strings.TrimPrefix "a/b/2.txt" "b/" = "a/b/2.txt".
Proof. reflexivity. Qed.
Example TrimLeft_ex : strings.TrimLeft "alias/prod" "alias/" = "prod".
Proof. reflexivity. Qed.
Example HasSuffix_ex : strings.HasSuffix "dir/" "/" = true.
Proof. reflexivity. Qed.
Example Base_ex : filepath.Base "dir/sub/file.txt" = "file.txt".
Proof. reflexivity. Qed.
Example Dir_ex : filepath.Dir "dir/sub/file.txt" = "dir/sub".
Proof. reflexivity. Qed.
Example Dir_plain : filepath.Dir "file.txt" = ".".
Proof. reflexivity. Qed.
Example Clean_ex : filepath.Clean "a//b/./c/../d/" = "a/b/d".
Proof. reflexivity. Qed.
Example Clean_root : filepath.Clean "/../a" = "/a".
Proof. reflexivity. Qed.

(** * Further properties of the commands *)

(** ** kms.go *)

(** The alias name that [createKey] gives to a key, ["alias/"] followed by
    the name, passes the name test of [getKmsAlias] for that name exactly
    when the name is empty or starts with a byte other than [a], [l], [i],
    [s] and [/]. *)
Theorem createKey_alias_name_resolves :
  forall (name : string) (target : option string),
    aliasMatches name
      {| AliasName := "alias/" ++ name; TargetKeyId := target |} = true
    <->
    match name with
    | EmptyString => True
    | String c _ => strings.inCutset c "alias/" = false
    end.
Proof.
  intros name target. unfold aliasMatches. cbn [AliasName].
  change (strings.TrimLeft ("alias/" ++ name) "alias/")
    with (strings.TrimLeft name "alias/").
  rewrite String.eqb_eq. apply TrimLeft_fixed.
Qed.

Lemma createKey_alias_name_resolves_witness :
  aliasMatches "prod" {| AliasName := "alias/prod"; TargetKeyId := None |}
  = true
  /\ aliasMatches "logs" {| AliasName := "alias/logs"; TargetKeyId := None |}
     <> true.
Proof.
  split.
  - apply (proj2 (createKey_alias_name_resolves "prod" None)). reflexivity.
  - intro H.
    apply (proj1 (createKey_alias_name_resolves "logs" None)) in H.
    discriminate H.
Defined.

(** [hasKmsAlias] answers from one alias listing: [true] exactly when some
    listed alias passes the name test, and the not-found case is [false]
    without an error; an error of the listing is handed on unchanged. *)
Theorem hasKmsAlias_from_listing :
  forall (W : Type) (h : Handler W) (w : W) (name : string),
    (forall aliases : list AliasListEntry,
        fst (h KmsListAliases w) = Ok aliases ->
        outcome h (hasKmsAlias name) w
        = Returned (Ok (existsb (aliasMatches name) aliases))
        /\ calls h (hasKmsAlias name) w = [KmsListAliases])
    /\
    (forall e : error,
        fst (h KmsListAliases w) = Err e ->
        e <> errKmsNotFound ->
        outcome h (hasKmsAlias name) w = Returned (Err e)).
Proof.
  intros W h w name.
  unfold hasKmsAlias, getKmsAlias, kmsKeys. cbn [bind call].
  rewrite outcome_Vis, calls_Vis. split.
  - intros aliases Hls. rewrite Hls. cbn [bind].
    destruct (find (aliasMatches name) aliases) as [alias |] eqn:Hfind;
      cbn [bind].
    + apply find_some in Hfind. destruct Hfind as [Hin Hm].
      assert (Hex : existsb (aliasMatches name) aliases = true)
        by (apply existsb_exists; eauto).
      rewrite Hex. split; reflexivity.
    + assert (Hex : existsb (aliasMatches name) aliases = false).
      { destruct (existsb (aliasMatches name) aliases) eqn:Hex;
          [| reflexivity].
        apply existsb_exists in Hex. destruct Hex as [x [Hin Hm]].
        rewrite (find_none _ _ Hfind x Hin) in Hm. discriminate Hm. }
      rewrite Hex. split; reflexivity.
  - intros e Hls Hne. rewrite Hls. cbn [bind].
    destruct e; [contradiction | reflexivity | reflexivity].
Qed.

Lemma hasKmsAlias_from_listing_witness :
  outcome Mem.handle (hasKmsAlias "prod") Scenario.prod = Returned (Ok true)
  /\ outcome Mem.handle (hasKmsAlias "sales") Scenario.sales
     = Returned (Ok false).
Proof.
  split.
  - apply (proj1 (hasKmsAlias_from_listing Mem.World Mem.handle
                    Scenario.prod "prod")
             [{| AliasName := "alias/prod"; TargetKeyId := Some "key-1" |}]
             eq_refl).
  - apply (proj1 (hasKmsAlias_from_listing Mem.World Mem.handle
                    Scenario.sales "sales")
             [{| AliasName := "alias/sales"; TargetKeyId := Some "key-1" |};
              {| AliasName := "alias/es"; TargetKeyId := Some "key-2" |}]
             eq_refl).
Defined.

Lemma find_none_of_Forall (name : string) (aliases : list AliasListEntry) :
  Forall (fun x => aliasMatches name x = false) aliases ->
  find (aliasMatches name) aliases = None.
Proof.
  induction 1 as [| x l Hx _ IH]; [reflexivity |].
  cbn [find]. rewrite Hx. exact IH.
Qed.

(** When no listed alias passes the name test, [createKey] creates the key
    first, with origin [AWS_KMS], and then an alias ["alias/" + name] that
    targets the ARN the key creation returned.  A failed key creation ends
    the run before any alias is created.  A failed alias creation ends the
    run with that error after the key has been created: no call follows,
    so the key stays, and no record is reported.  Only when both went
    through is the creation reported and [nil] returned. *)
Theorem createKey_key_then_alias :
  forall (W : Type) (h : Handler W) (w : W) (name description : string)
         (aliases : list AliasListEntry),
    fst (h KmsListAliases w) = Ok aliases ->
    Forall (fun x => aliasMatches name x = false) aliases ->
    let w1 := snd (h KmsListAliases w) in
    (forall e : error,
        fst (h (KmsCreateKey description "AWS_KMS") w1) = Err e ->
        outcome h (createKey name description) w = Returned (Some e)
        /\ calls h (createKey name description) w
           = [KmsListAliases; KmsCreateKey description "AWS_KMS"])
    /\
    (forall resp : KeyMetadata,
        fst (h (KmsCreateKey description "AWS_KMS") w1) = Ok resp ->
        let w2 := snd (h (KmsCreateKey description "AWS_KMS") w1) in
        (forall e : error,
            fst (h (KmsCreateAlias ("alias/" ++ name) (Arn resp)) w2)
            = Some e ->
            outcome h (createKey name description) w = Returned (Some e)
            /\ calls h (createKey name description) w
               = [KmsListAliases; KmsCreateKey description "AWS_KMS";
                  KmsCreateAlias ("alias/" ++ name) (Arn resp)])
        /\
        (fst (h (KmsCreateAlias ("alias/" ++ name) (Arn resp)) w2) = None ->
         outcome h (createKey name description) w = Returned None
         /\ calls h (createKey name description) w
            = [KmsListAliases; KmsCreateKey description "AWS_KMS";
               KmsCreateAlias ("alias/" ++ name) (Arn resp);
               Output (LogKeyCreated name (Arn resp) (AWSAccountId resp))])).
Proof.
  intros W h w name description aliases Hls Hnone w1.
  apply find_none_of_Forall in Hnone.
  unfold createKey, hasKmsAlias, getKmsAlias, kmsKeys. cbn [bind call].
  rewrite outcome_Vis, calls_Vis, Hls. cbn [bind]. rewrite Hnone.
  cbn [bind call]. rewrite outcome_Vis, calls_Vis. fold w1.
  split.
  - intros e Hck. rewrite Hck. split; reflexivity.
  - intros resp Hck. rewrite Hck. cbn [bind call].
    rewrite outcome_Vis, calls_Vis. split.
    + intros e Hca. rewrite Hca. split; reflexivity.
    + intros Hca. rewrite Hca. cbn [bind call].
      rewrite outcome_Vis, calls_Vis. split; reflexivity.
Qed.

Lemma createKey_key_then_alias_witness :
  outcome Mem.handle (createKey "logs" "log key") Scenario.prod
  = Returned None
  /\ calls Mem.handle (createKey "logs" "log key") Scenario.prod
     = [KmsListAliases; KmsCreateKey "log key" "AWS_KMS";
        KmsCreateAlias "alias/logs" "arn:aws:kms:key/log key";
        Output (LogKeyCreated "logs" "arn:aws:kms:key/log key"
                              "123456789012")].
Proof.
  refine (proj2 (proj2 (createKey_key_then_alias Mem.World Mem.handle
                          Scenario.prod "logs" "log key"
                          [{| AliasName := "alias/prod";
                              TargetKeyId := Some "key-1" |}]
                          eq_refl _)
                   {| Arn := "arn:aws:kms:key/log key";
                      AWSAccountId := "123456789012" |} eq_refl) eq_refl).
  repeat constructor.
Defined.

(** When no listed alias passes the name test, [deleteKey] returns the
    not-found error and the alias listing is its only call: no alias is
    deleted and no key is scheduled for deletion. *)
Theorem deleteKey_unknown_name :
  forall (W : Type) (h : Handler W) (w : W) (name : string) (deletion : bool)
         (aliases : list AliasListEntry),
    fst (h KmsListAliases w) = Ok aliases ->
    Forall (fun x => aliasMatches name x = false) aliases ->
    outcome h (deleteKey name deletion) w = Returned (Some errKmsNotFound)
    /\ calls h (deleteKey name deletion) w = [KmsListAliases].
Proof.
  intros W h w name deletion aliases Hls Hnone.
  apply find_none_of_Forall in Hnone.
  unfold deleteKey, getKmsAlias, kmsKeys. cbn [bind call].
  rewrite outcome_Vis, calls_Vis, Hls. cbn [bind]. rewrite Hnone.
  split; reflexivity.
Qed.

Lemma deleteKey_unknown_name_witness :
  outcome Mem.handle (deleteKey "logs" true) Scenario.prod
  = Returned (Some errKmsNotFound)
  /\ calls Mem.handle (deleteKey "logs" true) Scenario.prod
     = [KmsListAliases].
Proof.
  apply (deleteKey_unknown_name Mem.World Mem.handle Scenario.prod "logs"
           true [{| AliasName := "alias/prod"; TargetKeyId := Some "key-1" |}]
           eq_refl).
  repeat constructor.
Defined.

(** Whatever the environment answers, [deleteKey] without
    [schedule-deletion] never schedules a key deletion, [deleteKey] with it
    never asks for a pending window other than 7 days, and neither makes a
    call outside KMS and the formatter. *)
Theorem deleteKey_schedules_only_on_request :
  forall (W : Type) (h : Handler W) (w : W) (name : string) (deletion : bool),
    Forall (fun c => isSchedule c = false) (calls h (deleteKey name false) w)
    /\ Forall (fun c => schedulesOtherWindow c = false)
              (calls h (deleteKey name deletion) w)
    /\ Forall (fun c => beyondKms c = false)
              (calls h (deleteKey name deletion) w).
Proof.
  intros W h w name deletion.
  assert (Hgen : forall (P : Call -> bool) (d : bool),
    P KmsListAliases = false ->
    (forall n, P (KmsDeleteAlias n) = false) ->
    (d = true -> forall k, P (KmsScheduleKeyDeletion k 7) = false) ->
    (forall r, P (Output r) = false) ->
    never P (deleteKey name d)).
  { intros P d Hl Hd Hs Ho.
    unfold deleteKey, getKmsAlias, kmsKeys. cbn [bind call never].
    split; [exact Hl |]. intros [aliases | e]; cbn [bind]; [| exact I].
    destruct (find (aliasMatches name) aliases) as [alias |];
      cbn [bind call never]; [| exact I].
    split; [apply Hd |]. intros [e |]; cbn [bind]; [exact I |].
    destruct d; cbn [bind call deref].
    - destruct (TargetKeyId alias) as [keyId |]; cbn [bind call never];
        [| exact I].
      split; [apply Hs; reflexivity |].
      intros [e |]; cbn [bind call never]; [exact I |].
      split; [apply Ho | intros _; exact I].
    - destruct (TargetKeyId alias) as [keyId |]; cbn [bind call never];
        [| exact I].
      split; [apply Ho | intros _; exact I]. }
  split; [| split]; apply never_calls, Hgen;
    try reflexivity; try (intros; reflexivity); intro H; discriminate H.
Qed.

(** [listKeys] reports, in the provider's order, exactly the listed aliases
    that have a target key id, with that id and the alias name; it returns
    [nil] and does not panic on an alias without one. *)
Theorem listKeys_reports_usable_aliases :
  forall (W : Type) (h : Handler W) (w : W) (keys : list AliasListEntry),
    fst (h KmsListAliases w) = Ok keys ->
    outcome h listKeys w = Returned None
    /\ calls h listKeys w
       = KmsListAliases
         :: flat_map (fun k => match TargetKeyId k with
                               | Some id => [Output (LogKey id (AliasName k))]
                               | None => []
                               end) keys.
Proof.
  intros W h w keys Hls. unfold listKeys, kmsKeys. cbn [bind call].
  rewrite outcome_Vis, calls_Vis, Hls. cbn [bind].
  assert (Hloop : forall w1,
    outcome h
      (forEach keys (fun k =>
         match TargetKeyId k with
         | None => Ret None
         | Some id => call (Output (LogKey id (AliasName k))) ;;; Ret None
         end)) w1 = Returned None
    /\ calls h
         (forEach keys (fun k =>
            match TargetKeyId k with
            | None => Ret None
            | Some id => call (Output (LogKey id (AliasName k))) ;;; Ret None
            end)) w1
       = flat_map (fun k => match TargetKeyId k with
                            | Some id => [Output (LogKey id (AliasName k))]
                            | None => []
                            end) keys).
  { clear Hls. induction keys as [| k keys IH]; intro w1;
      [split; reflexivity |].
    cbn [forEach flat_map].
    destruct (TargetKeyId k) as [id |]; cbn [bind call app].
    - rewrite outcome_Vis, calls_Vis.
      destruct (IH (snd (h (Output (LogKey id (AliasName k))) w1)))
        as [Ho Hc].
      split; [exact Ho | f_equal; exact Hc].
    - apply IH. }
  destruct (Hloop (snd (h KmsListAliases w))) as [Ho Hc].
  split; [exact Ho | f_equal; exact Hc].
Qed.

Lemma listKeys_reports_usable_aliases_witness :
  outcome Mem.handle listKeys Scenario.sales = Returned None
  /\ calls Mem.handle listKeys Scenario.sales
     = [KmsListAliases; Output (LogKey "key-1" "alias/sales");
        Output (LogKey "key-2" "alias/es")].
Proof.
  apply (listKeys_reports_usable_aliases Mem.World Mem.handle Scenario.sales
           [{| AliasName := "alias/sales"; TargetKeyId := Some "key-1" |};
            {| AliasName := "alias/es"; TargetKeyId := Some "key-2" |}]
           eq_refl).
Defined.

(** ** buckets.go *)

Lemma existsb_Name_false (bucket : string) (bs : list Bucket) :
  ~ In bucket (map Name bs) ->
  existsb (fun x => String.eqb bucket (Name x)) bs = false.
Proof.
  intro Hnot.
  destruct (existsb (fun x => String.eqb bucket (Name x)) bs) eqn:E;
    [| reflexivity].
  apply existsb_Name in E. contradiction.
Qed.

(** When the bucket list does not name the bucket, [createBucket] asks the
    provider for it once.  The provider's error, if any, is returned
    unchanged and nothing is reported; on success the creation is reported
    and [nil] returned. *)
Theorem createBucket_new_bucket :
  forall (W : Type) (h : Handler W) (w : W) (name : string)
         (bs : list Bucket),
    fst (h S3ListBuckets w) = Ok bs ->
    ~ In name (map Name bs) ->
    (forall e : error,
        fst (h (S3CreateBucket name) (snd (h S3ListBuckets w))) = Some e ->
        outcome h (createBucket name) w = Returned (Some e)
        /\ calls h (createBucket name) w
           = [S3ListBuckets; S3CreateBucket name])
    /\
    (fst (h (S3CreateBucket name) (snd (h S3ListBuckets w))) = None ->
     outcome h (createBucket name) w = Returned None
     /\ calls h (createBucket name) w
        = [S3ListBuckets; S3CreateBucket name;
           Output (LogBucketCreated name)]).
Proof.
  intros W h w name bs Hls Hnot.
  unfold createBucket, hasBucket, listS3Buckets. cbn [bind call].
  rewrite outcome_Vis, calls_Vis, Hls. cbn [bind].
  rewrite (existsb_Name_false _ _ Hnot). cbn [bind call].
  rewrite outcome_Vis, calls_Vis. split.
  - intros e Hcb. rewrite Hcb. split; reflexivity.
  - intro Hcb. rewrite Hcb. cbn [bind call].
    rewrite outcome_Vis, calls_Vis. split; reflexivity.
Qed.

Lemma createBucket_new_bucket_witness :
  outcome Mem.handle (createBucket "logs") Scenario.prod = Returned None
  /\ calls Mem.handle (createBucket "logs") Scenario.prod
     = [S3ListBuckets; S3CreateBucket "logs";
        Output (LogBucketCreated "logs")].
Proof.
  refine (proj2 (createBucket_new_bucket Mem.World Mem.handle Scenario.prod
                   "logs" [{| Name := "b" |}] eq_refl _) eq_refl).
  simpl. intros [H | []]. discriminate H.
Defined.

(** When the bucket list does not name the bucket, [deleteBucket] returns
    the does-not-exist error, with or without [force], and the bucket
    listing is its only call: no object is listed or deleted. *)
Theorem deleteBucket_unknown_bucket :
  forall (W : Type) (h : Handler W) (w : W) (name : string) (force : bool)
         (bs : list Bucket),
    fst (h S3ListBuckets w) = Ok bs ->
    ~ In name (map Name bs) ->
    outcome h (deleteBucket name force) w
    = Returned (Some (Errorf "the bucket does not exist"))
    /\ calls h (deleteBucket name force) w = [S3ListBuckets].
Proof.
  intros W h w name force bs Hls Hnot.
  unfold deleteBucket, hasBucket, listS3Buckets. cbn [bind call].
  rewrite outcome_Vis, calls_Vis, Hls. cbn [bind].
  rewrite (existsb_Name_false _ _ Hnot). split; reflexivity.
Qed.

Lemma deleteBucket_unknown_bucket_witness :
  outcome Mem.handle (deleteBucket "logs" true) Scenario.nested
  = Returned (Some (Errorf "the bucket does not exist"))
  /\ calls Mem.handle (deleteBucket "logs" true) Scenario.nested
     = [S3ListBuckets].
Proof.
  apply (deleteBucket_unknown_bucket Mem.World Mem.handle Scenario.nested
           "logs" true [{| Name := "b" |}] eq_refl).
  simpl. intros [H | []]. discriminate H.
Defined.

Lemma never_deleteBucket (P : Call -> bool) (name : string) (force : bool) :
  P S3ListBuckets = false ->
  (forall b p, P (S3ListObjects b p) = false) ->
  (force = true -> forall k, P (S3DeleteObject name k) = false) ->
  P (S3DeleteBucket name) = false ->
  (forall r, P (Output r) = false) ->
  never P (deleteBucket name force).
Proof.
  intros Hlb Hlo Hdo Hdb Ho.
  unfold deleteBucket, hasBucket, listS3Buckets, sizeOfBucket, listBucketKeys.
  cbn [bind call never]. split; [exact Hlb |].
  intros [bs | e]; cbn [bind]; [| exact I].
  destruct (existsb (fun x => String.eqb name (Name x)) bs); cbn [bind];
    [| exact I].
  cbn [bind call never]. split; [apply Hlo |].
  intros [contents | e]; cbn [bind]; [| exact I].
  destruct (0 <? List.length (filter (fun x => negb (isDirectory x)) contents))%nat;
    cbn [andb].
  - destruct force; cbn [negb]; [| exact I].
    cbn [bind call never]. split; [apply Hlo |].
    intros [files | e]; cbn [bind].
    + apply never_bind.
      * apply never_forEach. intro x. cbn [bind call never].
        split; [apply Hdo; reflexivity |]. intros [e |]; exact I.
      * intros [e |]; cbn [never]; [exact I |].
        split; [exact Hdb |]. intros [e |]; cbn [bind call never];
          [exact I |].
        split; [apply Ho | intros _; exact I].
    + exact I.
  - cbn [bind call never]. split; [exact Hdb |].
    intros [e |]; cbn [bind call never]; [exact I |].
    split; [apply Ho | intros _; exact I].
Qed.

(** Whatever the environment answers, [deleteBucket] without [force] never
    deletes an object, and with or without [force] it never deletes an
    object of, or the whole of, a bucket other than the named one. *)
Theorem deleteBucket_deletes_only_the_named_bucket :
  forall (W : Type) (h : Handler W) (w : W) (name : string) (force : bool),
    Forall (fun c => isDeleteObject c = false)
           (calls h (deleteBucket name false) w)
    /\ Forall (fun c => deletesElsewhere name c = false)
              (calls h (deleteBucket name force) w).
Proof.
  intros W h w name force. split; apply never_calls, never_deleteBucket;
    try reflexivity; try (intros; reflexivity).
  - intro H. discriminate H.
  - intros _ k. cbn [deletesElsewhere]. rewrite String.eqb_refl. reflexivity.
  - cbn [deletesElsewhere]. rewrite String.eqb_refl. reflexivity.
Qed.

Lemma deleteBucket_refuses_without_force_witness :
  outcome Mem.handle (deleteBucket "b" false) Scenario.marked
  = Returned (Some (Errorf
      "the bucket is not empty, either force (--force) deletion or empty the bucket"))
  /\ calls Mem.handle (deleteBucket "b" false) Scenario.marked
     = [S3ListBuckets; S3ListObjects "b" ""].
Proof.
  apply (deleteBucket_refuses_without_force Mem.handle Scenario.marked "b"
           [{| Name := "b" |}]
           [(Mem.toObject ("dir/", "")); (Mem.toObject ("dir/a.txt", "x"))]
           (Mem.toObject ("dir/a.txt", "x")) eq_refl).
  - left. reflexivity.
  - reflexivity.
  - right. left. reflexivity.
  - reflexivity.
Defined.

(** ** files.go and get.go *)

(** a loop that reports some elements and passes over the others *)
Lemma forEach_outputs {W T : Type} (h : Handler W) (f : T -> LogRecord)
  (skip : T -> bool) (xs : list T) (w : W) :
  outcome h (forEach xs (fun x =>
     if skip x then Ret None else call (Output (f x)) ;;; Ret None)) w
  = Returned None
  /\ calls h (forEach xs (fun x =>
       if skip x then Ret None else call (Output (f x)) ;;; Ret None)) w
     = map (fun x => Output (f x)) (filter (fun x => negb (skip x)) xs).
Proof.
  revert w. induction xs as [| x xs IH]; intro w; [split; reflexivity |].
  cbn [forEach filter]. destruct (skip x); cbn [negb bind call map].
  - apply IH.
  - rewrite outcome_Vis, calls_Vis.
    destruct (IH (snd (h (Output (f x)) w))) as [Ho Hc].
    split; [exact Ho | f_equal; exact Hc].
Qed.

Lemma reportFile_long {W : Type} (h : Handler W) (w : W) (k : Object) :
  (complete k = true ->
   outcome h (reportFile true k) w = Returned None
   /\ calls h (reportFile true k) w
      = [Output (LogFileFields k); Output (LogFile true k)])
  /\ (complete k = false -> outcome h (reportFile true k) w = Panicked).
Proof.
  unfold complete, reportFile.
  destruct (Size k); [| split; [discriminate | reflexivity]].
  destruct (StorageClass k); [| split; [discriminate | reflexivity]].
  destruct (ETag k); [| split; [discriminate | reflexivity]].
  destruct (Owner k) as [owner |]; [| split; [discriminate | reflexivity]].
  cbn [deref bind call].
  destruct (LastModified k);
    [| split; [destruct (DisplayName owner); discriminate |];
       intros _; rewrite outcome_Vis;
       destruct (DisplayName owner); reflexivity].
  destruct (DisplayName owner); cbn [deref bind call].
  - split; [| discriminate]. intros _.
    rewrite !outcome_Vis, !calls_Vis. split; reflexivity.
  - split; [discriminate |]. intros _. rewrite outcome_Vis. reflexivity.
Qed.

Lemma reportFile_long_loop {W : Type} (h : Handler W) (l : list Object) :
  forall w : W,
    (forallb complete l = true ->
     outcome h (forEach l (reportFile true)) w = Returned None
     /\ calls h (forEach l (reportFile true)) w
        = flat_map (fun k => [Output (LogFileFields k);
                              Output (LogFile true k)]) l)
    /\ (forallb complete l = false ->
        outcome h (forEach l (reportFile true)) w = Panicked).
Proof.
  induction l as [| k l IH]; intro w.
  - split; [intros _; split; reflexivity | discriminate].
  - cbn [forallb forEach flat_map]. unfold outcome, calls.
    rewrite run_bind.
    destruct (reportFile_long h w k) as [Hc Hi].
    unfold outcome, calls in Hc, Hi.
    destruct (complete k) eqn:Hk.
    + destruct (Hc eq_refl) as [Ho Ht].
      destruct (run h (reportFile true k) w) as [[o w1] t1].
      cbn [fst snd] in Ho, Ht. subst o t1.
      destruct (IH w1) as [IHc IHi]. unfold outcome, calls in IHc, IHi.
      destruct (run h (forEach l (reportFile true)) w1) as [[o2 w2] t2].
      cbn [fst snd andb] in *. split.
      * intro Hall. destruct (IHc Hall) as [-> ->]. split; reflexivity.
      * intro Hall. rewrite (IHi Hall). reflexivity.
    + specialize (Hi eq_refl).
      destruct (run h (reportFile true k) w) as [[o w1] t1].
      cbn [fst snd andb] in *. subst o.
      split; [discriminate | reflexivity].
Qed.

Lemma reportFile_short_loop {W : Type} (h : Handler W) (l : list Object) :
  forall w : W,
    outcome h (forEach l (reportFile false)) w = Returned None
    /\ calls h (forEach l (reportFile false)) w
       = map (fun k => Output (LogFile false k)) l.
Proof.
  induction l as [| k l IH]; intro w; [split; reflexivity |].
  cbn [forEach reportFile bind call map].
  rewrite outcome_Vis, calls_Vis.
  destruct (IH (snd (h (Output (LogFile false k)) w))) as [Ho Ht].
  split; [exact Ho | f_equal; exact Ht].
Qed.

(** For one prefix, [listFiles] goes through the listed entries that are
    not directory markers and whose key, with the prefix taken off its
    front, holds no separator (all that are not directory markers in
    recursive mode), in the provider's order.  The short listing reports
    each of them and returns [nil].  The long listing does so, with a
    record and a line for each, when each of them has its size, storage
    class, ETag, owner, owner display name and modification time; when one
    of them lacks any of these it panics.  Without arguments the command is
    the listing of the empty prefix. *)
Theorem listFiles_reports_one_level :
  forall (W : Type) (h : Handler W) (w : W) (bucket p : string)
         (detailed recursive : bool) (contents : list Object),
    fst (h (S3ListObjects bucket p) w) = Ok contents ->
    let kept :=
      filter (fun k => negb (strings.Contains
                               (strings.TrimPrefix (Key k) p) "/"
                             && negb recursive))
             (filter (fun k => negb (strings.HasSuffix (Key k) "/"))
                     contents) in
    (detailed = false ->
     outcome h (listFiles bucket detailed recursive [p]) w = Returned None
     /\ calls h (listFiles bucket detailed recursive [p]) w
        = S3ListObjects bucket p
          :: map (fun k => Output (LogFile false k)) kept)
    /\
    (detailed = true -> forallb complete kept = true ->
     outcome h (listFiles bucket detailed recursive [p]) w = Returned None
     /\ calls h (listFiles bucket detailed recursive [p]) w
        = S3ListObjects bucket p
          :: flat_map (fun k => [Output (LogFileFields k);
                                 Output (LogFile true k)]) kept)
    /\
    (detailed = true -> forallb complete kept = false ->
     outcome h (listFiles bucket detailed recursive [p]) w = Panicked)
    /\ listFiles bucket detailed recursive []
       = listFiles bucket detailed recursive [""].
Proof.
  intros W h w bucket p detailed recursive contents Hls kept.
  assert (Hshape : forall d,
    run h (listFiles bucket d recursive [p]) w
    = match run h (forEach kept (reportFile d))
                (snd (h (S3ListObjects bucket p) w)) with
      | (Returned r, w', t) =>
          (Returned r, w', S3ListObjects bucket p :: t)
      | (Panicked, w', t) => (Panicked, w', S3ListObjects bucket p :: t)
      end).
  { intro d. unfold listFiles, getPaths, listBucketKeys.
    cbn [List.length Nat.leb forEach bind call].
    rewrite run_call, Hls. cbn [bind].
    rewrite (listFiles_keeps_by_remainder d recursive p).
    fold isDirectory. change (filter _ (filter _ contents)) with kept.
    rewrite run_bind.
    destruct (run h (forEach kept (reportFile d))
                  (snd (h (S3ListObjects bucket p) w)))
      as [[[r |] w'] t]; [| reflexivity].
    destruct r; cbn [run]; rewrite app_nil_r; reflexivity. }
  split; [| split; [| split; [| reflexivity]]].
  - intros ->. unfold outcome, calls. rewrite Hshape.
    destruct (reportFile_short_loop h kept
                (snd (h (S3ListObjects bucket p) w))) as [Ho Ht].
    unfold outcome, calls in Ho, Ht.
    destruct (run h (forEach kept (reportFile false))
                  (snd (h (S3ListObjects bucket p) w))) as [[o w'] t].
    cbn [fst snd] in Ho, Ht. subst o t. split; reflexivity.
  - intros -> Hall. unfold outcome, calls. rewrite Hshape.
    destruct (reportFile_long_loop h kept
                (snd (h (S3ListObjects bucket p) w))) as [Hc _].
    destruct (Hc Hall) as [Ho Ht]. unfold outcome, calls in Ho, Ht.
    destruct (run h (forEach kept (reportFile true))
                  (snd (h (S3ListObjects bucket p) w))) as [[o w'] t].
    cbn [fst snd] in Ho, Ht. subst o t. split; reflexivity.
  - intros -> Hall. unfold outcome. rewrite Hshape.
    destruct (reportFile_long_loop h kept
                (snd (h (S3ListObjects bucket p) w))) as [_ Hi].
    specialize (Hi Hall). unfold outcome in Hi.
    destruct (run h (forEach kept (reportFile true))
                  (snd (h (S3ListObjects bucket p) w))) as [[o w'] t].
    cbn [fst snd] in Hi. subst o. reflexivity.
Qed.

Lemma listFiles_reports_one_level_witness :
  let anonymous : Handler Mem.World := fun c w =>
    match c as c0 return Resp c0 * Mem.World with
    | S3ListObjects _ _ =>
        (Ok [{| Key := "a/1.txt"; Size := Some 3%N;
                StorageClass := Some "STANDARD"; ETag := Some "";
                Owner := Some {| DisplayName := None; ID := Some "id" |};
                LastModified := Some "01 Jan 15 00:00 UTC" |}], w)
    | c0 => Mem.handle c0 w
    end in
  (outcome Mem.handle (listFiles "b" false false ["a/"]) Scenario.nested
   = Returned None
   /\ calls Mem.handle (listFiles "b" false false ["a/"]) Scenario.nested
      = [S3ListObjects "b" "a/";
         Output (LogFile false (Mem.toObject ("a/1.txt", "one")))])
  /\
  (outcome Mem.handle (listFiles "b" true false ["a/"]) Scenario.nested
   = Returned None
   /\ calls Mem.handle (listFiles "b" true false ["a/"]) Scenario.nested
      = [S3ListObjects "b" "a/";
         Output (LogFileFields (Mem.toObject ("a/1.txt", "one")));
         Output (LogFile true (Mem.toObject ("a/1.txt", "one")))])
  /\
  outcome anonymous (listFiles "b" true false ["a/"]) Scenario.nested
  = Panicked.
Proof.
  intro anonymous.
  pose proof (listFiles_reports_one_level Mem.World Mem.handle
                Scenario.nested "b" "a/" false false
                [Mem.toObject ("a/1.txt", "one");
                 Mem.toObject ("a/b/2.txt", "two")] eq_refl)
    as [Hshort _].
  pose proof (listFiles_reports_one_level Mem.World Mem.handle
                Scenario.nested "b" "a/" true false
                [Mem.toObject ("a/1.txt", "one");
                 Mem.toObject ("a/b/2.txt", "two")] eq_refl)
    as [_ [Hlong _]].
  pose proof (listFiles_reports_one_level Mem.World anonymous
                Scenario.nested "b" "a/" true false
                [{| Key := "a/1.txt"; Size := Some 3%N;
                    StorageClass := Some "STANDARD"; ETag := Some "";
                    Owner := Some {| DisplayName := None; ID := Some "id" |};
                    LastModified := Some "01 Jan 15 00:00 UTC" |}] eq_refl)
    as [_ [_ [Hpanic _]]].
  exact (conj (Hshort eq_refl)
           (conj (Hlong eq_refl eq_refl) (Hpanic eq_refl eq_refl))).
Defined.

(** Whatever the environment answers and whatever the arguments,
    [listFiles] only lists the named bucket and hands records to the
    formatter: it makes no other call to S3 or KMS and none to the file
    system. *)
Theorem listFiles_only_lists :
  forall (W : Type) (h : Handler W) (w : W) (bucket : string)
         (detailed recursive : bool) (args : list string),
    Forall (fun c => beyondListing bucket c = false)
           (calls h (listFiles bucket detailed recursive args) w).
Proof.
  intros W h w bucket detailed recursive args.
  apply never_calls. unfold listFiles. apply never_forEach. intro p.
  unfold listBucketKeys. cbn [bind call never]. split.
  - cbn [beyondListing]. rewrite String.eqb_refl. reflexivity.
  - intros [contents | e]; cbn [bind]; [| exact I].
    apply never_forEach. intro k.
    destruct (strings.Contains (strings.TrimPrefix (Key k) p) "/"
              && negb recursive); [exact I |].
    unfold reportFile. destruct detailed.
    + destruct (Size k); [| exact I].
      destruct (StorageClass k); [| exact I].
      destruct (ETag k); [| exact I].
      destruct (Owner k) as [owner |]; [| exact I].
      cbn [deref bind call never]. split; [reflexivity |]. intros _.
      destruct (DisplayName owner); [| exact I].
      destruct (LastModified k); [| exact I].
      cbn [deref bind call never].
      split; [reflexivity | intros _; exact I].
    + cbn [bind call never]. split; [reflexivity | intros _; exact I].
Qed.

(** Whatever the environment answers and whatever the arguments,
    [getFiles] reads from the named bucket only and changes no bucket: its
    calls to the provider are listings and fetches of that bucket, and it
    makes no call to KMS; on the local side it makes directories and opens
    and writes files, and runs nothing. *)
Theorem getFiles_only_reads_the_bucket :
  forall (W : Type) (h : Handler W) (w : W) (bucket outdir : string)
         (flatten recursive : bool) (filter : string) (args : list string),
    Forall (fun c => beyondDownload bucket c = false)
           (calls h (getFiles bucket outdir flatten recursive filter args) w).
Proof.
  intros W h w bucket outdir flatten recursive filter args.
  apply never_calls. unfold getFiles. cbn [bind call never].
  split; [reflexivity |]. intros [re | e]; cbn [bind call never]; [| exact I].
  split; [reflexivity |]. intros [e |]; [exact I |].
  apply never_forEach. intro p. unfold listBucketKeys.
  cbn [bind call never]. split.
  - cbn [beyondDownload]. rewrite String.eqb_refl. reflexivity.
  - intros [contents | e]; cbn [bind]; [| exact I].
    apply never_forEach. intro k. apply never_getOne;
      try (intros; reflexivity).
    intros key _. cbn [beyondDownload]. rewrite String.eqb_refl. reflexivity.
Qed.

(** Whatever the environment answers and whatever the arguments, every
    upload [putFiles] makes goes to the named bucket, asks for server-side
    encryption [aws:kms] and carries the given key id. *)
Theorem putFiles_uploads_encrypted :
  forall (W : Type) (h : Handler W) (w : W) (bucket kms : string)
         (flatten : bool) (args : list string),
    Forall (fun c => uploadsOtherwise bucket kms c = false)
           (calls h (putFiles bucket kms flatten args) w).
Proof.
  intros W h w bucket kms flatten args.
  apply never_calls. unfold putFiles, hasBucket, listS3Buckets.
  cbn [bind call never]. split; [reflexivity |].
  intros [bs | e]; cbn [bind]; [| exact I].
  destruct (existsb (fun x => String.eqb bucket (Name x)) bs); [| exact I].
  destruct (List.length args <=? 0)%nat; [exact I |].
  apply never_forEach. intro p. cbn [bind call never].
  split; [reflexivity |]. intros [files | e]; cbn [bind]; [| exact I].
  apply never_forEach. intro filename. unfold putFile.
  cbn [bind call never]. split; [reflexivity |].
  intros [file | e]; cbn [bind call never]; [| exact I].
  split.
  - cbn [uploadsOtherwise]. rewrite !String.eqb_refl. reflexivity.
  - intros [e |]; cbn [bind call never]; [exact I |].
    split; [reflexivity | intros _; exact I].
Qed.

(** A leading separator on a path argument of [getFiles] is dropped before
    the listing: the command with ["/"] in front of a path is the command
    with the path itself, for a path that does not itself start with a
    separator.  Only one separator is dropped. *)
Theorem getFiles_drops_one_leading_separator :
  forall (bucket outdir : string) (flatten recursive : bool)
         (filter p : string) (rest : list string),
    strings.HasPrefix p "/" = false ->
    getFiles bucket outdir flatten recursive filter (("/" ++ p) :: rest)
    = getFiles bucket outdir flatten recursive filter (p :: rest).
Proof.
  intros bucket outdir flatten recursive filter p rest Hp.
  unfold getFiles, getPaths. cbn [List.length Nat.leb forEach].
  change (strings.HasPrefix ("/" ++ p) "/") with true. cbv iota.
  change (strings.TrimPrefix ("/" ++ p) "/") with p.
  rewrite Hp. reflexivity.
Qed.

Lemma getFiles_drops_one_leading_separator_witness :
  getFiles "b" "out" false true ".*" ["/a/"]
  = getFiles "b" "out" false true ".*" ["a/"]
  /\ calls Mem.handle (getFiles "b" "out" false true ".*" ["//a/"])
           Scenario.nested
     = [RegexpCompile ".*"; OsMkdirAll "out" perm0755;
        S3ListObjects "b" "/a/"].
Proof.
  split.
  - apply (getFiles_drops_one_leading_separator "b" "out" false true ".*"
             "a/" []).
    reflexivity.
  - reflexivity.
Defined.

Lemma append_assoc' (a b c : string) : (a ++ b) ++ c = a ++ (b ++ c).
Proof. induction a as [| x a IH]; simpl; [reflexivity | rewrite IH; reflexivity]. Qed.

Lemma append_nil_r (a : string) : a ++ "" = a.
Proof. induction a as [| x a IH]; simpl; [reflexivity | rewrite IH; reflexivity]. Qed.

(** the contents of the named objects, one after the other *)
Lemma catLoop_all {W : Type} (h : Handler W) (w : W) (bucket : string)
  (content : string -> string) (args : list string) (out : string) :
  (forall w' key, snd (h (S3GetObject bucket key) w') = w') ->
  (forall key, In key args ->
               fst (h (S3GetObject bucket key) w) = Ok (content key)) ->
  outcome h (catLoop bucket args out) w
  = Returned (out ++ String.concat "" (map content args), None)
  /\ calls h (catLoop bucket args out) w = map (S3GetObject bucket) args.
Proof.
  intros Hsame. revert out.
  induction args as [| filename args IH]; intros out Hget.
  - cbn. rewrite append_nil_r. split; reflexivity.
  - cbn [catLoop getFileBlob bind call].
    rewrite outcome_Vis, calls_Vis, Hsame, (Hget filename (or_introl eq_refl)).
    cbn [bind].
    destruct (IH (out ++ content filename)
                 (fun key Hin => Hget key (or_intror Hin))) as [Ho Hc].
    rewrite Ho, Hc. split; [| reflexivity].
    rewrite append_assoc'. do 2 f_equal.
    cbn [map String.concat].
    destruct (map content args); [rewrite append_nil_r |]; reflexivity.
Qed.

(** When every named object can be fetched, [catFiles] fetches the
    arguments in order, once each, prints their contents one after the
    other with nothing in between, and returns [nil]; without arguments it
    fetches and prints nothing.  (The fetches are taken to leave the
    environment as it is.) *)
Theorem catFiles_prints_contents_in_order :
  forall (W : Type) (h : Handler W) (w : W) (bucket : string)
         (content : string -> string) (args : list string),
    (forall w' key, snd (h (S3GetObject bucket key) w') = w') ->
    (forall key, In key args ->
                 fst (h (S3GetObject bucket key) w) = Ok (content key)) ->
    outcome h (catFiles bucket args) w
    = Returned (String.concat "" (map content args), None)
    /\ calls h (catFiles bucket args) w = map (S3GetObject bucket) args.
Proof.
  intros W h w bucket content args Hsame Hget.
  exact (catLoop_all h w bucket content args "" Hsame Hget).
Qed.

Lemma Mem_fetch_keeps_world (bucket key : string) (w : Mem.World) :
  snd (Mem.handle (S3GetObject bucket key) w) = w.
Proof.
  cbn [Mem.handle].
  destruct (Mem.lookup bucket (Mem.buckets w)) as [objs |]; [| reflexivity].
  destruct (Mem.lookup key objs); reflexivity.
Qed.

Lemma catFiles_prints_contents_in_order_witness :
  outcome Mem.handle (catFiles "b" ["a/b/2.txt"; "a/1.txt"]) Scenario.nested
  = Returned ("twoone", None)
  /\ calls Mem.handle (catFiles "b" ["a/b/2.txt"; "a/1.txt"]) Scenario.nested
     = [S3GetObject "b" "a/b/2.txt"; S3GetObject "b" "a/1.txt"].
Proof.
  apply (catFiles_prints_contents_in_order Mem.World Mem.handle
           Scenario.nested "b"
           (fun key => if String.eqb key "a/1.txt" then "one" else "two")
           ["a/b/2.txt"; "a/1.txt"]).
  - intros w' key. apply Mem_fetch_keeps_world.
  - intros key [H | [H | []]]; subst key; reflexivity.
Defined.

(** [catFiles] stops at the first object it cannot fetch: it returns the
    provider's error as it is, what the earlier objects held has already
    been printed, and no later object is fetched. *)
Theorem catFiles_stops_at_first_failure :
  forall (W : Type) (h : Handler W) (w : W) (bucket : string)
         (content : string -> string) (before : list string)
         (filename : string) (after : list string) (e : error),
    (forall w' key, snd (h (S3GetObject bucket key) w') = w') ->
    (forall key, In key before ->
                 fst (h (S3GetObject bucket key) w) = Ok (content key)) ->
    fst (h (S3GetObject bucket filename) w) = Err e ->
    outcome h (catFiles bucket (before ++ filename :: after)%list) w
    = Returned (String.concat "" (map content before), Some e)
    /\ calls h (catFiles bucket (before ++ filename :: after)%list) w
       = map (S3GetObject bucket) (before ++ [filename])%list.
Proof.
  intros W h w bucket content before filename after e Hsame Hget Herr.
  unfold catFiles.
  assert (Hgen : forall out,
    outcome h (catLoop bucket (before ++ filename :: after)%list out) w
    = Returned (out ++ String.concat "" (map content before), Some e)
    /\ calls h (catLoop bucket (before ++ filename :: after)%list out) w
       = map (S3GetObject bucket) (before ++ [filename])%list).
  { induction before as [| x before IH]; intro out.
    - cbn [app catLoop getFileBlob bind call map String.concat].
      rewrite outcome_Vis, calls_Vis, Herr. cbn [bind].
      rewrite append_nil_r. split; reflexivity.
    - cbn [app catLoop getFileBlob bind call].
      rewrite outcome_Vis, calls_Vis, Hsame, (Hget x (or_introl eq_refl)).
      cbn [bind].
      destruct (IH (fun key Hin => Hget key (or_intror Hin))
                   (out ++ content x)) as [Ho Hc].
      rewrite Ho, Hc. split; [| reflexivity].
      rewrite append_assoc'. do 2 f_equal.
      cbn [map String.concat].
      destruct (map content before); [rewrite append_nil_r |]; reflexivity. }
  exact (Hgen "").
Qed.

Lemma catFiles_stops_at_first_failure_witness :
  outcome Mem.handle (catFiles "b" ["a/1.txt"; "missing"; "a/b/2.txt"])
          Scenario.nested
  = Returned ("one", Some (External "NoSuchKey"))
  /\ calls Mem.handle (catFiles "b" ["a/1.txt"; "missing"; "a/b/2.txt"])
           Scenario.nested
     = [S3GetObject "b" "a/1.txt"; S3GetObject "b" "missing"].
Proof.
  apply (catFiles_stops_at_first_failure Mem.World Mem.handle
           Scenario.nested "b" (fun _ => "one") ["a/1.txt"] "missing"
           ["a/b/2.txt"] (External "NoSuchKey")).
  - intros w' key. apply Mem_fetch_keeps_world.
  - intros key [H | []]; subst key; reflexivity.
  - reflexivity.
Defined.

Lemma isSlash_prefix (c : ascii) (s : string) :
  strings.HasPrefix (String c s) "/" = filepath.isSlash c.
Proof.
  cbn [strings.HasPrefix]. unfold filepath.isSlash.
  rewrite andb_true_r. apply Ascii.eqb_sym.
Qed.

Lemma dirPart_without_separator (key : string) :
  strings.Contains key "/" = false -> filepath.dirPart key = "".
Proof.
  destruct key as [| c key]; [reflexivity |].
  cbn [strings.Contains filepath.dirPart]. rewrite isSlash_prefix.
  intro H. rewrite H. reflexivity.
Qed.

(** [hasKey] answers from one listing, under the directory of the key as a
    prefix: [true] exactly when the listing holds the key itself and the
    key does not end with a separator.  An error of the listing is handed
    on. *)
Theorem hasKey_from_listing :
  forall (W : Type) (h : Handler W) (w : W) (key bucket : string)
         (contents : list Object),
    fst (h (S3ListObjects bucket (filepath.Dir key)) w) = Ok contents ->
    exists found : bool,
      outcome h (hasKey key bucket) w = Returned (Ok found)
      /\ calls h (hasKey key bucket) w
         = [S3ListObjects bucket (filepath.Dir key)]
      /\ (found = true <->
          In key (map Key contents) /\ strings.HasSuffix key "/" = false).
Proof.
  intros W h w key bucket contents Hls.
  exists (existsb (fun k => String.eqb key (Key k))
            (filter (fun x => negb (isDirectory x)) contents)).
  unfold hasKey, listBucketKeys. cbn [bind call].
  rewrite outcome_Vis, calls_Vis, Hls. cbn [bind].
  split; [reflexivity | split; [reflexivity |]].
  rewrite existsb_exists. split.
  - intros [k [Hin Heq]]. apply String.eqb_eq in Heq.
    apply filter_In in Hin. destruct Hin as [Hin Hdir].
    unfold isDirectory in Hdir. apply negb_true_iff in Hdir.
    subst key. split; [apply in_map; exact Hin | exact Hdir].
  - intros [Hin Hsuf]. apply in_map_iff in Hin.
    destruct Hin as [k [Heq Hin]]. exists k. split.
    + apply filter_In. split; [exact Hin |].
      unfold isDirectory. rewrite Heq, Hsuf. reflexivity.
    + apply String.eqb_eq. congruence.
Qed.

Lemma hasKey_from_listing_witness :
  exists found : bool,
    outcome Mem.handle (hasKey "a/1.txt" "b") Scenario.nested
    = Returned (Ok found)
    /\ calls Mem.handle (hasKey "a/1.txt" "b") Scenario.nested
       = [S3ListObjects "b" "a"]
    /\ (found = true <->
        In "a/1.txt" ["a/1.txt"; "a/b/2.txt"]
        /\ strings.HasSuffix "a/1.txt" "/" = false).
Proof.
  apply (hasKey_from_listing Mem.World Mem.handle Scenario.nested
           "a/1.txt" "b"
           [(Mem.toObject ("a/1.txt", "one"));
            (Mem.toObject ("a/b/2.txt", "two"))]).
  reflexivity.
Defined.

(** For a key without a separator [hasKey] lists under the prefix ["."],
    the directory of such a key.  A provider that returns only keys that
    start with the prefix it was given then returns no key equal to the
    one asked for, unless that key starts with a dot: [hasKey] answers
    [false] for every other key at the top of a bucket, whether or not the
    object is there. *)
Theorem hasKey_misses_top_level_keys :
  forall (W : Type) (h : Handler W) (w : W) (key bucket : string)
         (contents : list Object),
    strings.Contains key "/" = false ->
    strings.HasPrefix key "." = false ->
    fst (h (S3ListObjects bucket ".") w) = Ok contents ->
    Forall (fun k => strings.HasPrefix (Key k) "." = true) contents ->
    outcome h (hasKey key bucket) w = Returned (Ok false)
    /\ calls h (hasKey key bucket) w = [S3ListObjects bucket "."].
Proof.
  intros W h w key bucket contents Hsep Hdot Hls Hpre.
  unfold hasKey, listBucketKeys, filepath.Dir.
  rewrite (dirPart_without_separator key Hsep).
  change (filepath.Clean "") with ".". cbn [bind call].
  rewrite outcome_Vis, calls_Vis, Hls. cbn [bind].
  split; [| reflexivity]. do 2 f_equal.
  destruct (existsb (fun k => String.eqb key (Key k))
              (filter (fun x => negb (isDirectory x)) contents)) eqn:E;
    [| reflexivity].
  apply existsb_exists in E. destruct E as [k [Hin Heq]].
  apply String.eqb_eq in Heq. apply filter_In in Hin. destruct Hin as [Hin _].
  rewrite Forall_forall in Hpre. specialize (Hpre k Hin).
  rewrite <- Heq, Hdot in Hpre. discriminate Hpre.
Qed.

Lemma hasKey_misses_top_level_keys_witness :
  outcome Mem.handle (hasKey "secret.txt" "b") Scenario.vault
  = Returned (Ok false)
  /\ calls Mem.handle (hasKey "secret.txt" "b") Scenario.vault
     = [S3ListObjects "b" "."].
Proof.
  apply (hasKey_misses_top_level_keys Mem.World Mem.handle Scenario.vault
           "secret.txt" "b" []); try reflexivity.
  constructor.
Defined.

(** ** formatter.go *)

(** A formatter that [newFormater] accepted renders each report in one way
    only.  For ["text"] it is the formatted line and the record is not
    encoded.  For ["yaml"] and ["yml"] alike it is the YAML encoding of the
    record, for ["json"] the JSON encoding, each handed to the formatting
    function as the format, and the line is not printed; a record that
    cannot be encoded leaves no output at all.  No other format is
    accepted. *)
Theorem report_renders_one_way :
  forall (Fields Arg : Type)
         (yamlMarshal jsonMarshal : Fields -> result string)
         (Sprintf : string -> list Arg -> string)
         (name : string) (w : Writer) (r : formater)
         (v : Fields) (message : string) (args : list Arg),
    newFormater name w = Ok r ->
    (name = "text"
     /\ report Fields Arg yamlMarshal jsonMarshal Sprintf r v message args
        = Sprintf message args)
    \/
    ((name = "yaml" \/ name = "yml")
     /\ report Fields Arg yamlMarshal jsonMarshal Sprintf r v message args
        = match yamlMarshal v with
          | Ok encode => Sprintf encode []
          | Err _ => ""
          end)
    \/
    (name = "json"
     /\ report Fields Arg yamlMarshal jsonMarshal Sprintf r v message args
        = match jsonMarshal v with
          | Ok encode => Sprintf encode []
          | Err _ => ""
          end).
Proof.
  intros Fields Arg yamlMarshal jsonMarshal Sprintf name w r v message args.
  unfold newFormater, report, fields, log.
  destruct (String.eqb name "yml") eqn:Hyml.
  - intro H. injection H as <-. cbn [format]. rewrite Hyml.
    apply String.eqb_eq in Hyml. subst name. cbn.
    right. left. split; [right; reflexivity |].
    destruct (yamlMarshal v); [apply append_nil_r | reflexivity].
  - destruct (String.eqb name "yaml") eqn:Hyaml.
    + intro H. injection H as <-. cbn [format].
      rewrite Hyml, Hyaml.
      apply String.eqb_eq in Hyaml. subst name. cbn.
      right. left. split; [left; reflexivity |].
      destruct (yamlMarshal v); [apply append_nil_r | reflexivity].
    + destruct (String.eqb name "json") eqn:Hjson.
      * intro H. injection H as <-. cbn [format].
        rewrite Hyml, Hyaml, Hjson.
        apply String.eqb_eq in Hjson. subst name. cbn.
        right. right. split; [reflexivity |].
        destruct (jsonMarshal v); [apply append_nil_r | reflexivity].
      * destruct (String.eqb name "text") eqn:Htext.
        -- intro H. injection H as <-. cbn [format].
           rewrite Hyml, Hyaml, Hjson, Htext.
           apply String.eqb_eq in Htext. subst name. cbn.
           left. split; reflexivity.
        -- intro H. discriminate H.
Qed.

Lemma report_renders_one_way_witness :
  let yaml := fun _ : list (string * string) => Err (External "cannot encode") in
  let json := fun _ : list (string * string) => Ok "{}" in
  let sprintf := fun (m : string) (_ : list string) => m in
  let r := {| format := "yml"; writer := Stdout |} in
  ("yml" = "text"
   /\ report _ _ yaml json sprintf r [("key", "a")] "a" [] = "a")
  \/
  (("yml" = "yaml" \/ "yml" = "yml")
   /\ report _ _ yaml json sprintf r [("key", "a")] "a" [] = "")
  \/
  ("yml" = "json"
   /\ report _ _ yaml json sprintf r [("key", "a")] "a" [] = "{}").
Proof.
  intros yaml json sprintf r.
  exact (report_renders_one_way (list (string * string)) string yaml json
           sprintf "yml" Stdout r [("key", "a")] "a" [] eq_refl).
Defined.

(** ** cmd.go *)

Lemma checkOptions_passes (cx : Context) (before rest : list string) :
  Forall (requiredSet cx) before ->
  checkOptions cx (before ++ rest)%list = checkOptions cx rest.
Proof.
  induction 1 as [| k before [otype [name [Hsplit Hset]]] _ IH];
    [reflexivity |].
  cbn [app checkOptions]. rewrite Hsplit.
  destruct (String.eqb otype "g"); rewrite Hset; cbn [negb]; exact IH.
Qed.

(** [handleCommand] checks the required options in their order.  When the
    options before one are well formed and set and that one is well formed
    but not set, the command line ends with exit status 1 after the line
    that names the option, as a global option for type [g] and as a command
    option for every other type; the command body is not run and no call
    is made. *)
Theorem handleCommand_missing_option :
  forall (cx : Context) (before after : list string) (k otype name : string)
         (method : formater -> Context -> Prog (option error)),
    Forall (requiredSet cx) before ->
    strings.Split k ":" = [otype; name] ->
    (if String.eqb otype "g" then GlobalIsSet cx name else IsSet cx name)
    = false ->
    handleCommand cx (before ++ k :: after)%list method
    = Ret (Exited
             (printError
                (if String.eqb otype "g"
                 then "the global option: '" ++ name
                      ++ "' is required for this command"
                 else "the command option '" ++ name ++ "' is required"))).
Proof.
  intros cx before after k otype name method Hbefore Hsplit Hunset.
  unfold handleCommand. rewrite (checkOptions_passes cx before _ Hbefore).
  cbn [checkOptions]. rewrite Hsplit.
  destruct (String.eqb otype "g"); rewrite Hunset; reflexivity.
Qed.

Lemma handleCommand_missing_option_witness :
  handleCommand (globalContext (fun _ => "text") (fun _ => true))
    (["g:output-dir"] ++ "l:bucket" :: [])%list
    (fun _ _ => getFiles "b" "out" false false ".*" [])
  = Ret (Exited (printError "the command option 'bucket' is required")).
Proof.
  apply (handleCommand_missing_option
           (globalContext (fun _ => "text") (fun _ => true))
           ["g:output-dir"] [] "l:bucket" "l" "bucket").
  - constructor; [| constructor].
    exists "g", "output-dir". split; reflexivity.
  - reflexivity.
  - reflexivity.
Defined.

(** When every required option is well formed and set, [handleCommand]
    runs the command body once, with a formatter of the global [format]
    option, or ends with exit status 1 and the unsupported-format line
    without running it when that format is none of [text], [json], [yaml]
    and [yml].  The calls of the command line are the calls of the body; it
    completes when the body returns [nil] and ends with exit status 1 and
    the line ["[error] operation failed, error: ..."] when the body returns
    an error. *)
Theorem handleCommand_runs_the_body :
  forall (W : Type) (h : Handler W) (w : W) (cx : Context)
         (options : list string)
         (method : formater -> Context -> Prog (option error)),
    Forall (requiredSet cx) options ->
    (forall o : formater,
        newFormater (GlobalString cx "format") Stdout = Ok o ->
        format o = GlobalString cx "format"
        /\ calls h (handleCommand cx options method) w
           = calls h (method o cx) w
        /\ (outcome h (method o cx) w = Returned None ->
            outcome h (handleCommand cx options method) w
            = Returned Completed)
        /\ (forall err : error,
               outcome h (method o cx) w = Returned (Some err) ->
               outcome h (handleCommand cx options method) w
               = Returned (Exited (printError ("operation failed, error: "
                                               ++ Error err)))))
    /\
    (~ In (GlobalString cx "format") ["yml"; "yaml"; "json"; "text"] ->
     handleCommand cx options method
     = Ret (Exited (printError "error: unsupport output format"))).
Proof.
  intros W h w cx options method Hset.
  unfold handleCommand.
  rewrite <- (app_nil_r options), (checkOptions_passes cx options [] Hset).
  cbn [checkOptions bind]. split.
  - intros o Ho. rewrite Ho. split.
    { unfold newFormater in Ho.
      repeat match type of Ho with
             | (if ?b then _ else _) = _ => destruct b
             end; try discriminate Ho; injection Ho as <-; reflexivity. }
    unfold calls, outcome. rewrite run_bind.
    destruct (run h (method o cx) w) as [[[r |] w'] t]; cbn [fst snd].
    + split; [| split].
      * destruct r; cbn [run snd]; apply app_nil_r.
      * intro Hr. injection Hr as ->. reflexivity.
      * intros err Hr. injection Hr as ->. reflexivity.
    + split; [reflexivity | split; [discriminate |]].
      intros err Hr. discriminate Hr.
  - intro Hnot. unfold newFormater.
    destruct (String.eqb (GlobalString cx "format") "yml") eqn:H1;
      [apply String.eqb_eq in H1; exfalso; apply Hnot; rewrite H1;
       simpl; tauto |].
    destruct (String.eqb (GlobalString cx "format") "yaml") eqn:H2;
      [apply String.eqb_eq in H2; exfalso; apply Hnot; rewrite H2;
       simpl; tauto |].
    destruct (String.eqb (GlobalString cx "format") "json") eqn:H3;
      [apply String.eqb_eq in H3; exfalso; apply Hnot; rewrite H3;
       simpl; tauto |].
    destruct (String.eqb (GlobalString cx "format") "text") eqn:H4;
      [apply String.eqb_eq in H4; exfalso; apply Hnot; rewrite H4;
       simpl; tauto |].
    reflexivity.
Qed.

Lemma handleCommand_runs_the_body_witness :
  outcome Mem.handle
    (handleCommand (globalContext (fun _ => "text") (fun _ => true))
       ["g:output-dir"] (fun _ _ => listFiles "b" false false ["a/"]))
    Scenario.nested
  = Returned Completed
  /\ handleCommand (globalContext (fun _ => "xml") (fun _ => true))
       ["g:output-dir"] (fun _ _ => listFiles "b" false false ["a/"])
     = Ret (Exited (printError "error: unsupport output format")).
Proof.
  assert (Hset : forall values,
             Forall (requiredSet (globalContext values (fun _ => true)))
                    ["g:output-dir"]).
  { intro values. constructor; [| constructor].
    exists "g", "output-dir". split; reflexivity. }
  split.
  - apply (proj1 (handleCommand_runs_the_body Mem.World Mem.handle
                    Scenario.nested
                    (globalContext (fun _ => "text") (fun _ => true))
                    ["g:output-dir"]
                    (fun _ _ => listFiles "b" false false ["a/"])
                    (Hset _))
             {| format := "text"; writer := Stdout |} eq_refl).
    reflexivity.
  - apply (proj2 (handleCommand_runs_the_body Mem.World Mem.handle
                    Scenario.nested
                    (globalContext (fun _ => "xml") (fun _ => true))
                    ["g:output-dir"]
                    (fun _ _ => listFiles "b" false false ["a/"])
                    (Hset _))).
    simpl. intros [H | [H | [H | [H | []]]]]; discriminate H.
Defined.

(** A required option whose definition does not split at [":"] into
    exactly a type and a name makes [handleCommand] panic when its turn
    comes, before the command body is run. *)
Theorem handleCommand_malformed_option :
  forall (cx : Context) (before after : list string) (k : string)
         (method : formater -> Context -> Prog (option error)),
    Forall (requiredSet cx) before ->
    List.length (strings.Split k ":") <> 2 ->
    handleCommand cx (before ++ k :: after)%list method = Panic.
Proof.
  intros cx before after k method Hbefore Hlen.
  unfold handleCommand. rewrite (checkOptions_passes cx before _ Hbefore).
  cbn [checkOptions].
  destruct (strings.Split k ":") as [| a [| b [| c l]]]; try reflexivity.
  exfalso. apply Hlen. reflexivity.
Qed.

Lemma handleCommand_malformed_option_witness :
  handleCommand (globalContext (fun _ => "text") (fun _ => true))
    (["g:output-dir"] ++ "bucket" :: [])%list
    (fun _ _ => listFiles "b" false false [])
  = Panic.
Proof.
  apply (handleCommand_malformed_option
           (globalContext (fun _ => "text") (fun _ => true))
           ["g:output-dir"] [] "bucket").
  - constructor; [| constructor].
    exists "g", "output-dir". split; reflexivity.
  - simpl. discriminate.
Defined.

(** The [Before] hook, for a context in which the misspelt flag
    ["secret-ket"] reads as empty.  Without a region it exits.  Otherwise
    the access key alone decides on static credentials.  With an access key
    and no secret key it returns the error about the access key; with both
    it builds static credentials from the two and the session token.
    Without an access key it returns no error even when a secret key is
    given: the secret key is ignored, and the credentials are those of the
    named profile, or left to the default chain when no profile is named.
    The error about a secret key without an access key is never
    returned. *)
Theorem getCredentials_access_key_decides :
  forall cx : Context,
    GlobalString cx "secret-ket" = "" ->
    (GlobalString cx "region" = "" ->
     getCredentials cx
     = BeforeExit
         ("[error] you have not specified the aws region the resources reside"
          ++ newline))
    /\
    (GlobalString cx "region" <> "" ->
     (GlobalString cx "access-key" <> "" ->
      GlobalString cx "secret-key" = "" ->
      getCredentials cx
      = BeforeError
          (Errorf "you have specified a access key with a secret key"))
     /\
     (GlobalString cx "access-key" <> "" ->
      GlobalString cx "secret-key" <> "" ->
      getCredentials cx
      = BeforeClients
          {| Region := GlobalString cx "region";
             ConfigCredentials :=
               Some (NewStaticCredentials (GlobalString cx "access-key")
                       (GlobalString cx "secret-key")
                       (GlobalString cx "session-token")) |})
     /\
     (GlobalString cx "access-key" = "" ->
      getCredentials cx
      = BeforeClients
          {| Region := GlobalString cx "region";
             ConfigCredentials :=
               if String.eqb (GlobalString cx "profile") "" then None
               else Some (NewSharedCredentials (GlobalString cx "credentials")
                            (GlobalString cx "profile")) |}))
    /\
    getCredentials cx
    <> BeforeError (Errorf "you have specified a secret key with a access key").
Proof.
  intros cx Hket. unfold getCredentials. rewrite Hket.
  cbn [String.eqb negb orb]. rewrite orb_false_r.
  destruct (String.eqb (GlobalString cx "region") "") eqn:Hregion.
  - apply String.eqb_eq in Hregion.
    split; [intros _; reflexivity |].
    split; [intro H; contradiction | discriminate].
  - apply String.eqb_neq in Hregion.
    split; [intro H; contradiction |].
    destruct (String.eqb (GlobalString cx "access-key") "") eqn:Hak;
      cbn [negb].
    + apply String.eqb_eq in Hak.
      split.
      * intros _. split; [intro H; contradiction |].
        split; [intro H; contradiction |]. intros _.
        destruct (String.eqb (GlobalString cx "profile") ""); reflexivity.
      * destruct (String.eqb (GlobalString cx "profile") ""); discriminate.
    + apply String.eqb_neq in Hak.
      destruct (String.eqb (GlobalString cx "secret-key") "") eqn:Hsk.
      * apply String.eqb_eq in Hsk.
        split; [| discriminate].
        intros _. split; [intros _ _; reflexivity |].
        split; [intros _ H; contradiction | intro H; contradiction].
      * apply String.eqb_neq in Hsk.
        split; [| discriminate].
        intros _. split; [intros _ H; contradiction |].
        split; [intros _ _; reflexivity | intro H; contradiction].
Qed.

Lemma getCredentials_access_key_decides_witness :
  getCredentials
    (globalContext
       (fun name => if String.eqb name "region" then "eu-west-1"
                    else if String.eqb name "secret-key" then "s3cr3t"
                    else "")
       (fun _ => true))
  = BeforeClients {| Region := "eu-west-1"; ConfigCredentials := None |}.
Proof.
  refine (proj2 (proj2 (proj1 (proj2
            (getCredentials_access_key_decides
               (globalContext
                  (fun name => if String.eqb name "region" then "eu-west-1"
                               else if String.eqb name "secret-key"
                                    then "s3cr3t"
                                    else "")
                  (fun _ => true))
               eq_refl)) _)) eq_refl).
  discriminate.
Defined.

(** ** The result of an inline edit *)

(** When the temporary file cannot be created, [inlineEditFile] returns
    that error after this one call: nothing is written, the editor is not
    run and nothing is removed.  When it can, a failed write is the result
    and the editor is not run; after a successful write the result is what
    the editor's run answered.  What closing and removing the file answer
    is not looked at. *)
Theorem inlineEditFile_result :
  forall (W : Type) (h : Handler W) (w : W)
         (filename content editor : string),
    (forall e : error,
        fst (h (TempFile "/tmp" (filename ++ ".XXXXXXXX")) w) = Err e ->
        outcome h (inlineEditFile filename content editor) w
        = Returned (Some e)
        /\ calls h (inlineEditFile filename content editor) w
           = [TempFile "/tmp" (filename ++ ".XXXXXXXX")])
    /\
    (forall tmpfile : File,
        fst (h (TempFile "/tmp" (filename ++ ".XXXXXXXX")) w) = Ok tmpfile ->
        let w1 := snd (h (TempFile "/tmp" (filename ++ ".XXXXXXXX")) w) in
        let w2 := snd (h (FileWrite tmpfile content) w1) in
        let w3 := snd (h (FileClose tmpfile) w2) in
        (forall e : error,
            fst (h (FileWrite tmpfile content) w1) = Some e ->
            outcome h (inlineEditFile filename content editor) w
            = Returned (Some e)
            /\ Forall (fun c => match c with
                                | CmdRun _ _ => False
                                | _ => True
                                end)
                      (calls h (inlineEditFile filename content editor) w))
        /\
        (fst (h (FileWrite tmpfile content) w1) = None ->
         outcome h (inlineEditFile filename content editor) w
         = Returned (fst (h (CmdRun editor [FileName tmpfile]) w3)))).
Proof.
  intros W h w filename content editor.
  unfold inlineEditFile. cbn [bind call].
  rewrite outcome_Vis, calls_Vis. split.
  - intros e Htmp. rewrite Htmp. split; reflexivity.
  - intros tmpfile Htmp. rewrite Htmp. cbn [bind call].
    rewrite outcome_Vis, calls_Vis. split.
    + intros e Hwr. rewrite Hwr. cbn [bind call].
      rewrite outcome_Vis, calls_Vis. split; [reflexivity |].
      repeat constructor.
    + intro Hwr. rewrite Hwr. cbn [bind call].
      rewrite !outcome_Vis.
      destruct (fst (h (CmdRun editor [FileName tmpfile])
                       (snd (h (FileClose tmpfile)
                               (snd (h (FileWrite tmpfile content)
                                       (snd (h (TempFile "/tmp"
                                                  (filename ++ ".XXXXXXXX"))
                                               w))))))))
        as [e |]; cbn [bind call]; rewrite outcome_Vis; reflexivity.
Qed.

Lemma inlineEditFile_result_witness :
  outcome Mem.handle (inlineEditFile "secret.txt" "hunter2" "vim")
          Scenario.vault
  = Returned None.
Proof.
  exact (proj2 (proj2 (inlineEditFile_result Mem.World Mem.handle
                         Scenario.vault "secret.txt" "hunter2" "vim")
                  {| FileName := "/tmp/secret.txt.XXXXXXXX0" |} eq_refl)
           eq_refl).
Defined.

(** Whatever the environment answers, the only program [editFile] runs is
    the one named by [EDITOR], or [vim] when [EDITOR] is empty, and it runs
    it on one argument at a time, the temporary file. *)
Theorem editFile_runs_the_editor :
  forall (W : Type) (h : Handler W) (w : W) (bucket EDITOR : string)
         (args : list string),
    Forall (fun c => runsOtherwise
                       (if String.eqb EDITOR "" then "vim" else EDITOR) c
                     = false)
           (calls h (editFile bucket EDITOR args) w).
Proof.
  intros W h w bucket EDITOR args. apply never_calls.
  unfold editFile. apply never_forEach. intro x.
  unfold getFileBlob. cbn [bind call never]. split; [reflexivity |].
  intros [content | e]; cbn [bind]; [| exact I].
  apply never_bind; [| intros [e |]; exact I].
  unfold inlineEditFile. cbn [bind call never]. split; [reflexivity |].
  intros [tmpfile | e]; cbn [bind call never]; [| exact I].
  split; [reflexivity |].
  intros [e |]; cbn [bind call never].
  - split; [reflexivity | intros _; exact I].
  - split; [reflexivity |]. intros _. split.
    + cbn [runsOtherwise List.length Nat.eqb].
      destruct (String.eqb EDITOR ""); cbn [negb];
        rewrite String.eqb_refl; reflexivity.
    + intros [e |]; cbn [bind call never];
        (split; [reflexivity | intros _; exact I]).
Qed.

Lemma delete_loop_stops {W : Type} (h : Handler W) (name : string)
  (failing : Object) (after : list Object) (e : error)
  (before : list Object) :
  (forall w' k, In k before ->
                fst (h (S3DeleteObject name (Key k)) w') = None) ->
  (forall w', fst (h (S3DeleteObject name (Key failing)) w') = Some e) ->
  forall w : W,
    exists w' : W,
      run h (forEach (before ++ failing :: after)%list (fun x =>
               e <- call (S3DeleteObject name (Key x)) ;;
               match e with
               | Some e =>
                   Ret (Some (Errorf ("failed to remove the file: " ++ Key x
                                      ++ " from bucket, error: "
                                      ++ Error e)))
               | None => Ret None
               end)) w
      = (Returned (Some (Errorf ("failed to remove the file: "
                                 ++ Key failing
                                 ++ " from bucket, error: " ++ Error e))),
         w',
         map (fun k => S3DeleteObject name (Key k))
             (before ++ [failing])%list).
Proof.
  intros Hok Hfail.
  induction before as [| k before IH]; intro w.
  - cbn [app forEach bind call map]. rewrite run_call, Hfail.
    cbn [run]. eexists. reflexivity.
  - cbn [app forEach bind call map].
    rewrite run_call, (Hok _ k (or_introl eq_refl)).
    destruct (IH (fun w' x Hin => Hok w' x (or_intror Hin))
                 (snd (h (S3DeleteObject name (Key k)) w))) as [w' Hrun].
    exists w'.
    match goal with
    | |- context [run h ?p ?s] =>
        replace (run h p s)
          with (Returned (Some (Errorf ("failed to remove the file: "
                                        ++ Key failing
                                        ++ " from bucket, error: "
                                        ++ Error e))),
                w',
                map (fun k => S3DeleteObject name (Key k))
                    (before ++ [failing])%list)
          by (symmetry; exact Hrun)
    end.
    reflexivity.
Qed.

(** With [force], the objects of a bucket are deleted one at a time, in the
    order of the second listing.  When the provider accepts the deletion of
    the files before one and refuses the deletion of that one,
    [deleteBucket] returns an error that names the refused object and
    carries the provider's message, and stops there: the deletions made are
    those of the files before it and the attempt on it, the files after it
    are left, and the deletion of the bucket is not asked for. *)
Theorem deleteBucket_stops_at_failed_object :
  forall (W : Type) (h : Handler W) (w : W) (name : string)
         (bs : list Bucket) (counted contents : list Object)
         (before : list Object) (failing : Object) (after : list Object)
         (e : error),
    fst (h S3ListBuckets w) = Ok bs ->
    In name (map Name bs) ->
    let w1 := snd (h S3ListBuckets w) in
    let w2 := snd (h (S3ListObjects name "") w1) in
    fst (h (S3ListObjects name "") w1) = Ok counted ->
    filter (fun x => negb (isDirectory x)) counted <> [] ->
    fst (h (S3ListObjects name "") w2) = Ok contents ->
    filter (fun x => negb (isDirectory x)) contents
    = (before ++ failing :: after)%list ->
    (forall w' k, In k before ->
                  fst (h (S3DeleteObject name (Key k)) w') = None) ->
    (forall w', fst (h (S3DeleteObject name (Key failing)) w') = Some e) ->
    outcome h (deleteBucket name true) w
    = Returned (Some (Errorf ("failed to remove the file: " ++ Key failing
                              ++ " from bucket, error: " ++ Error e)))
    /\ calls h (deleteBucket name true) w
       = (S3ListBuckets :: S3ListObjects name "" :: S3ListObjects name ""
          :: map (fun k => S3DeleteObject name (Key k))
                 (before ++ [failing]))%list.
Proof.
  intros W h w name bs counted contents before failing after e Hlb Hin w1 w2
         Hl1 Hcount Hl2 Hfiles Hok Hfail.
  unfold outcome, calls.
  unfold deleteBucket, hasBucket, listS3Buckets, sizeOfBucket, listBucketKeys.
  cbn [bind call]. rewrite run_call, Hlb. cbn [bind].
  apply existsb_Name in Hin. rewrite Hin. cbn [bind].
  rewrite run_call. fold w1. rewrite Hl1. cbn [bind].
  destruct (filter (fun x => negb (isDirectory x)) counted) as [| c cs];
    [contradiction Hcount; reflexivity |].
  cbn [List.length Nat.ltb Nat.leb andb negb bind call].
  rewrite run_call. fold w2. rewrite Hl2. cbn [bind].
  rewrite Hfiles, run_bind.
  destruct (delete_loop_stops h name failing after e before Hok Hfail
              (snd (h (S3ListObjects name "") w2))) as [w' Hrun].
  match goal with
  | |- context [run h (forEach ?l ?body) ?s] =>
      replace (run h (forEach l body) s)
        with (Returned (Some (Errorf ("failed to remove the file: "
                                      ++ Key failing
                                      ++ " from bucket, error: "
                                      ++ Error e))),
              w',
              map (fun k => S3DeleteObject name (Key k))
                  (before ++ [failing])%list)
        by (symmetry; exact Hrun)
  end.
  cbn [run fst snd]. rewrite app_nil_r. split; reflexivity.
Qed.

Lemma deleteBucket_stops_at_failed_object_witness :
  let refuse : Handler Mem.World := fun c w =>
    match c as c0 return Resp c0 * Mem.World with
    | S3DeleteObject _ key =>
        (if String.eqb key "a/b/2.txt"
         then Some (External "AccessDenied") else None, w)
    | c0 => Mem.handle c0 w
    end in
  let three : Mem.World :=
    Scenario.account []
      [("b", [("a/1.txt", "one"); ("a/b/2.txt", "two"); ("c.txt", "c")])] in
  outcome refuse (deleteBucket "b" true) three
  = Returned (Some (Errorf
      "failed to remove the file: a/b/2.txt from bucket, error: AccessDenied"))
  /\ calls refuse (deleteBucket "b" true) three
     = [S3ListBuckets; S3ListObjects "b" ""; S3ListObjects "b" "";
        S3DeleteObject "b" "a/1.txt"; S3DeleteObject "b" "a/b/2.txt"].
Proof.
  intros refuse three.
  apply (deleteBucket_stops_at_failed_object Mem.World refuse three "b"
           [{| Name := "b" |}]
           [Mem.toObject ("a/1.txt", "one"); Mem.toObject ("a/b/2.txt", "two");
            Mem.toObject ("c.txt", "c")]
           [Mem.toObject ("a/1.txt", "one"); Mem.toObject ("a/b/2.txt", "two");
            Mem.toObject ("c.txt", "c")]
           [Mem.toObject ("a/1.txt", "one")]
           (Mem.toObject ("a/b/2.txt", "two"))
           [Mem.toObject ("c.txt", "c")]
           (External "AccessDenied") eq_refl).
  - left. reflexivity.
  - reflexivity.
  - discriminate.
  - reflexivity.
  - reflexivity.
  - intros w' k [Hk | []]. subst k. reflexivity.
  - intro w'. reflexivity.
Defined.

(** ** More on keys *)

(** [deleteKey] deletes the alias before it touches the key.  With a first
    matching alias that has a target key id: a failed alias deletion is
    returned and nothing is scheduled; with [schedule-deletion], a failed
    scheduling is returned after the alias has been deleted, and nothing is
    reported; when every call went through, the key deletion is scheduled
    for that target with a window of 7 days (or not at all without
    [schedule-deletion]), the deletion is reported and [nil] returned. *)
Theorem deleteKey_alias_before_key :
  forall (W : Type) (h : Handler W) (w : W) (name keyId : string)
         (aliases : list AliasListEntry) (alias : AliasListEntry),
    fst (h KmsListAliases w) = Ok aliases ->
    find (aliasMatches name) aliases = Some alias ->
    TargetKeyId alias = Some keyId ->
    let w1 := snd (h KmsListAliases w) in
    let w2 := snd (h (KmsDeleteAlias (AliasName alias)) w1) in
    (forall (deletion : bool) (e : error),
        fst (h (KmsDeleteAlias (AliasName alias)) w1) = Some e ->
        outcome h (deleteKey name deletion) w = Returned (Some e)
        /\ calls h (deleteKey name deletion) w
           = [KmsListAliases; KmsDeleteAlias (AliasName alias)])
    /\
    (fst (h (KmsDeleteAlias (AliasName alias)) w1) = None ->
     (forall e : error,
         fst (h (KmsScheduleKeyDeletion keyId 7) w2) = Some e ->
         outcome h (deleteKey name true) w = Returned (Some e)
         /\ calls h (deleteKey name true) w
            = [KmsListAliases; KmsDeleteAlias (AliasName alias);
               KmsScheduleKeyDeletion keyId 7])
     /\
     (fst (h (KmsScheduleKeyDeletion keyId 7) w2) = None ->
      outcome h (deleteKey name true) w = Returned None
      /\ calls h (deleteKey name true) w
         = [KmsListAliases; KmsDeleteAlias (AliasName alias);
            KmsScheduleKeyDeletion keyId 7;
            Output (LogKeyDeleted (AliasName alias) keyId true)])
     /\
     (outcome h (deleteKey name false) w = Returned None
      /\ calls h (deleteKey name false) w
         = [KmsListAliases; KmsDeleteAlias (AliasName alias);
            Output (LogKeyDeleted (AliasName alias) keyId false)])).
Proof.
  intros W h w name keyId aliases alias Hls Hfind Hkey w1 w2.
  assert (Hstart : forall deletion,
    outcome h (deleteKey name deletion) w
    = outcome h
        (e <- call (KmsDeleteAlias (AliasName alias)) ;;
         match e with
         | Some e => Ret (Some e)
         | None =>
             e <- (if deletion then call (KmsScheduleKeyDeletion keyId 7)
                   else Ret None) ;;
             match e with
             | Some e => Ret (Some e)
             | None =>
                 call (Output (LogKeyDeleted (AliasName alias) keyId
                                             deletion)) ;;;
                 Ret None
             end
         end) w1
    /\ calls h (deleteKey name deletion) w
       = KmsListAliases
         :: calls h
              (e <- call (KmsDeleteAlias (AliasName alias)) ;;
               match e with
               | Some e => Ret (Some e)
               | None =>
                   e <- (if deletion then call (KmsScheduleKeyDeletion keyId 7)
                         else Ret None) ;;
                   match e with
                   | Some e => Ret (Some e)
                   | None =>
                       call (Output (LogKeyDeleted (AliasName alias) keyId
                                                   deletion)) ;;;
                       Ret None
                   end
               end) w1).
  { intro deletion. unfold deleteKey, getKmsAlias, kmsKeys. cbn [bind call].
    rewrite outcome_Vis, calls_Vis, Hls. cbn [bind]. rewrite Hfind.
    cbn [bind]. rewrite Hkey. cbn [deref bind].
    destruct deletion; split; reflexivity. }
  split.
  - intros deletion e Hdel. destruct (Hstart deletion) as [-> ->].
    cbn [bind call]. rewrite outcome_Vis, calls_Vis. fold w1.
    rewrite Hdel. split; reflexivity.
  - intro Hdel. split; [| split].
    + intros e Hs. destruct (Hstart true) as [-> ->].
      cbn [bind call]. rewrite !outcome_Vis, !calls_Vis. fold w1.
      rewrite Hdel. cbn [bind call]. rewrite outcome_Vis, calls_Vis.
      fold w2. rewrite Hs. split; reflexivity.
    + intro Hs. destruct (Hstart true) as [-> ->].
      cbn [bind call]. rewrite !outcome_Vis, !calls_Vis. fold w1.
      rewrite Hdel. cbn [bind call]. rewrite outcome_Vis, calls_Vis.
      fold w2. rewrite Hs. cbn [bind call].
      rewrite outcome_Vis, calls_Vis. split; reflexivity.
    + destruct (Hstart false) as [-> ->].
      cbn [bind call]. rewrite !outcome_Vis, !calls_Vis. fold w1.
      rewrite Hdel. cbn [bind call]. rewrite outcome_Vis, calls_Vis.
      split; reflexivity.
Qed.

Lemma deleteKey_alias_before_key_witness :
  outcome Mem.handle (deleteKey "prod" true) Scenario.prod = Returned None
  /\ calls Mem.handle (deleteKey "prod" true) Scenario.prod
     = [KmsListAliases; KmsDeleteAlias "alias/prod";
        KmsScheduleKeyDeletion "key-1" 7;
        Output (LogKeyDeleted "alias/prod" "key-1" true)].
Proof.
  exact (proj1 (proj2 (proj2 (deleteKey_alias_before_key Mem.World Mem.handle
                                Scenario.prod "prod" "key-1"
                                [{| AliasName := "alias/prod";
                                    TargetKeyId := Some "key-1" |}]
                                {| AliasName := "alias/prod";
                                   TargetKeyId := Some "key-1" |}
                                eq_refl eq_refl eq_refl)
                         eq_refl))
           eq_refl).
Defined.

Lemma getKmsAlias_first_match_witness :
  outcome Mem.handle (getKmsAlias "es") Scenario.sales
  = Returned (Ok {| AliasName := "alias/sales"; TargetKeyId := Some "key-1" |})
  /\ (outcome Mem.handle (getKmsAlias "prod") Scenario.sales
      = Returned (Err errKmsNotFound) <->
      Forall (fun x => aliasMatches "prod" x = false)
        [{| AliasName := "alias/sales"; TargetKeyId := Some "key-1" |};
         {| AliasName := "alias/es"; TargetKeyId := Some "key-2" |}]).
Proof.
  split.
  - apply (proj1 (getKmsAlias_first_match Mem.handle Scenario.sales "es"
                    [{| AliasName := "alias/sales";
                        TargetKeyId := Some "key-1" |};
                     {| AliasName := "alias/es";
                        TargetKeyId := Some "key-2" |}] eq_refl)).
    reflexivity.
  - apply (proj2 (getKmsAlias_first_match Mem.handle Scenario.sales "prod"
                    [{| AliasName := "alias/sales";
                        TargetKeyId := Some "key-1" |};
                     {| AliasName := "alias/es";
                        TargetKeyId := Some "key-2" |}] eq_refl)).
Defined.

(** ** The retrieval of one key *)

Lemma getFiles_single {W : Type} (h : Handler W) (w : W)
  (bucket outdir : string) (flatten recursive : bool) (filter : string)
  (args : list string) (re : Regexp) (p : string) (contents : list Object)
  (k : Object) :
  fst (h (RegexpCompile filter) w) = Ok re ->
  getPaths args = [p] ->
  fst (h (OsMkdirAll outdir perm0755) (snd (h (RegexpCompile filter) w)))
  = None ->
  fst (h (S3ListObjects bucket
            (if strings.HasPrefix p "/" then strings.TrimPrefix p "/" else p))
         (snd (h (OsMkdirAll outdir perm0755)
                 (snd (h (RegexpCompile filter) w))))) = Ok contents ->
  List.filter (fun k => MatchString re (Key k))
    (List.filter
       (fun k => negb (strings.Contains (Key k) "/" && negb recursive))
       (List.filter (fun k => negb (strings.HasSuffix (Key k) "/"))
                    contents)) = [k] ->
  let w3 :=
    snd (h (S3ListObjects bucket
              (if strings.HasPrefix p "/" then strings.TrimPrefix p "/"
               else p))
           (snd (h (OsMkdirAll outdir perm0755)
                   (snd (h (RegexpCompile filter) w))))) in
  outcome h (getFiles bucket outdir flatten recursive filter args) w
  = outcome h (retrieveFile bucket outdir flatten k) w3
  /\ calls h (getFiles bucket outdir flatten recursive filter args) w
     = RegexpCompile filter :: OsMkdirAll outdir perm0755
       :: S3ListObjects bucket
            (if strings.HasPrefix p "/" then strings.TrimPrefix p "/" else p)
       :: calls h (retrieveFile bucket outdir flatten k) w3.
Proof.
  intros Hre Hpaths Hmk Hls Hkept w3.
  unfold getFiles. rewrite Hpaths. cbn [bind call forEach].
  rewrite outcome_Vis, calls_Vis, Hre. cbn [bind call].
  rewrite outcome_Vis, calls_Vis, Hmk. unfold listBucketKeys.
  cbn [bind call]. rewrite outcome_Vis, calls_Vis, Hls. cbn [bind].
  rewrite getOne_loop. fold isDirectory. unfold isDirectory at 1 2.
  rewrite Hkept. fold w3. cbn [forEach].
  unfold outcome, calls. rewrite !run_bind.
  destruct (run h (retrieveFile bucket outdir flatten k) w3)
    as [[[r |] w'] t]; cbn [fst snd].
  - destruct r as [e |]; cbn [run fst snd]; rewrite !app_nil_r;
      split; reflexivity.
  - split; reflexivity.
Qed.

(** The download of a prefix under which exactly one listed key passes the
    filters.  After the compilation, the output directory and the listing,
    [getFiles] fetches the object; makes the directory of the destination;
    opens the destination, creating or truncating it; writes the fetched
    content; and reports the file.  The first of these steps that fails
    ends the run with its error, after the calls made so far and no other:
    when the fetch fails nothing is made or opened locally for the key, and
    the file is opened only after its directory has been made. *)
Theorem getFiles_retrieves_one_key :
  forall (W : Type) (h : Handler W) (w : W) (bucket outdir : string)
         (flatten recursive : bool) (filter : string) (args : list string)
         (re : Regexp) (p : string) (contents : list Object) (k : Object),
    fst (h (RegexpCompile filter) w) = Ok re ->
    getPaths args = [p] ->
    let prefix :=
      if strings.HasPrefix p "/" then strings.TrimPrefix p "/" else p in
    let w1 := snd (h (RegexpCompile filter) w) in
    let w2 := snd (h (OsMkdirAll outdir perm0755) w1) in
    let w3 := snd (h (S3ListObjects bucket prefix) w2) in
    fst (h (OsMkdirAll outdir perm0755) w1) = None ->
    fst (h (S3ListObjects bucket prefix) w2) = Ok contents ->
    List.filter (fun k => MatchString re (Key k))
      (List.filter
         (fun k => negb (strings.Contains (Key k) "/" && negb recursive))
         (List.filter (fun k => negb (strings.HasSuffix (Key k) "/"))
                      contents)) = [k] ->
    let start := [RegexpCompile filter; OsMkdirAll outdir perm0755;
                  S3ListObjects bucket prefix] in
    let dir := outdir ++ "/"
               ++ filepath.Dir (getFilename outdir flatten (Key k)) in
    let dest := getFullPath outdir flatten (Key k) in
    let flag := N.lor (N.lor O_CREATE O_TRUNC) O_RDWR in
    let run := getFiles bucket outdir flatten recursive filter args in
    (forall e : error,
        fst (h (S3GetObject bucket (Key k)) w3) = Err e ->
        outcome h run w = Returned (Some e)
        /\ calls h run w = (start ++ [S3GetObject bucket (Key k)])%list)
    /\
    (forall content : string,
        fst (h (S3GetObject bucket (Key k)) w3) = Ok content ->
        let w4 := snd (h (S3GetObject bucket (Key k)) w3) in
        (forall e : error,
            fst (h (OsMkdirAll dir perm0755) w4) = Some e ->
            outcome h run w = Returned (Some e)
            /\ calls h run w
               = (start ++ [S3GetObject bucket (Key k);
                            OsMkdirAll dir perm0755])%list)
        /\
        (fst (h (OsMkdirAll dir perm0755) w4) = None ->
         let w5 := snd (h (OsMkdirAll dir perm0755) w4) in
         (forall e : error,
             fst (h (OsOpenFile dest flag perm0744) w5) = Err e ->
             outcome h run w = Returned (Some e)
             /\ calls h run w
                = (start ++ [S3GetObject bucket (Key k);
                             OsMkdirAll dir perm0755;
                             OsOpenFile dest flag perm0744])%list)
         /\
         (forall file : File,
             fst (h (OsOpenFile dest flag perm0744) w5) = Ok file ->
             let w6 := snd (h (OsOpenFile dest flag perm0744) w5) in
             (forall e : error,
                 fst (h (FileWrite file content) w6) = Some e ->
                 outcome h run w = Returned (Some e)
                 /\ calls h run w
                    = (start ++ [S3GetObject bucket (Key k);
                                 OsMkdirAll dir perm0755;
                                 OsOpenFile dest flag perm0744;
                                 FileWrite file content])%list)
             /\
             (fst (h (FileWrite file content) w6) = None ->
              outcome h run w = Returned None
              /\ calls h run w
                 = (start ++ [S3GetObject bucket (Key k);
                              OsMkdirAll dir perm0755;
                              OsOpenFile dest flag perm0744;
                              FileWrite file content;
                              Output (LogGet (Key k) dest content)])%list)))).
Proof.
  intros W h w bucket outdir flatten recursive filter args re p contents k
         Hre Hpaths prefix w1 w2 w3 Hmk Hls Hkept start dir dest flag run.
  destruct (getFiles_single h w bucket outdir flatten recursive filter args
              re p contents k Hre Hpaths Hmk Hls Hkept) as [Ho Hc].
  fold prefix w1 w2 w3 in Ho, Hc. subst run. rewrite Ho, Hc. clear Ho Hc.
  unfold retrieveFile, getFileBlob. cbn [bind call].
  fold dir. change (outdir ++ "/" ++ getFilename outdir flatten (Key k))
    with dest. fold flag.
  rewrite outcome_Vis, calls_Vis. cbv zeta. split.
  - intros e Hget. rewrite Hget. split; reflexivity.
  - intros content Hget. rewrite Hget. cbn [bind call].
    rewrite outcome_Vis, calls_Vis. split.
    + intros e Hmd. rewrite Hmd. split; reflexivity.
    + intros Hmd. rewrite Hmd. cbn [bind call].
      rewrite outcome_Vis, calls_Vis. split.
      * intros e Hop. rewrite Hop. split; reflexivity.
      * intros file Hop. rewrite Hop. cbn [bind call].
        rewrite outcome_Vis, calls_Vis. split.
        -- intros e Hwr. rewrite Hwr. split; reflexivity.
        -- intros Hwr. rewrite Hwr. cbn [bind call].
           rewrite outcome_Vis, calls_Vis. split; reflexivity.
Qed.

Lemma getFiles_retrieves_one_key_witness :
  outcome Mem.handle (getFiles "b" "out" false true "\.txt$" [])
          Scenario.mixed
  = Returned None
  /\ calls Mem.handle (getFiles "b" "out" false true "\.txt$" [])
           Scenario.mixed
     = [RegexpCompile "\.txt$"; OsMkdirAll "out" perm0755;
        S3ListObjects "b" ""; S3GetObject "b" "a.txt";
        OsMkdirAll "out/." perm0755;
        OsOpenFile "out/a.txt" 578 perm0744;
        FileWrite {| FileName := "out/a.txt" |} "text";
        Output (LogGet "a.txt" "out/a.txt" "text")].
Proof.
  exact (proj2 (proj2 (proj2 (proj2
           (getFiles_retrieves_one_key Mem.World Mem.handle Scenario.mixed
              "b" "out" false true "\.txt$" []
              {| MatchString := fun s => strings.HasSuffix s ".txt" |} ""
              [Mem.toObject ("a.txt", "text"); Mem.toObject ("a.bin", "bits")]
              (Mem.toObject ("a.txt", "text"))
              eq_refl eq_refl eq_refl eq_refl eq_refl)
           "text" eq_refl) eq_refl)
           {| FileName := "out/a.txt" |} eq_refl) eq_refl).
Defined.
